(** * Triage pipeline of the e-mail responder: risk scoring, classification,
      history ledger and decision policy.

    Shallow embedding of [email_filter.py], [email_processor.py],
    [email_tracker.py], of [should_process_email] and
    [process_single_email] of [main.py] and of the parts of
    [gemini_email.py] that do not call the model, followed by the
    properties established for them.

    Modelling conventions.
    - A Python [str] is a [string] of 8-bit characters; [str.lower] and
      [str.isupper] act on the ASCII letters, every other character is
      caseless.
    - An e-mail record ([Dict]) whose values are strings is a
      [gmap string string]; [d.get(k, default)] is [get d k default].
    - A score (Python [float]) is an exact rational [Q]; the constants
      0.1, 0.2, 0.3, 0.5 and 1.0 are 1/10, 2/10, 3/10, 5/10 and 1.
    - A raised exception is the [None] of an [option] result.
    - [datetime] values are integers counting microseconds; one reading of
      [datetime.now()] is an explicit argument.
    - White space ([str.isspace], [str.strip], the class [\s]) is read on
      the code points below 256.
    - The language model behind [generate_response] and the mail server
      behind [send_email] are parameters of [process_single_email]; the
      calls of [send_email] it makes are part of its result. *)

From Stdlib Require Import Ascii QArith Qminmax Lqa.
From stdpp Require Import gmap strings list fin_maps.

(** ** Python string operations *)

Module Text.

Definition isupper (c : ascii) : bool :=
  let n := Ascii.N_of_ascii c in (65 <=? n)%N && (n <=? 90)%N.

Definition lower_char (c : ascii) : ascii :=
  if isupper c then Ascii.ascii_of_N (Ascii.N_of_ascii c + 32) else c.

(** [s.lower()] *)
Fixpoint lower (s : string) : string :=
  match s with
  | EmptyString => EmptyString
  | String c s' => String (lower_char c) (lower s')
  end.

(** [s.startswith(p)] *)
Fixpoint startswith (s p : string) {struct p} : bool :=
  match p, s with
  | EmptyString, _ => true
  | String a p', String b s' => if decide (a = b) then startswith s' p' else false
  | String _ _, EmptyString => false
  end.

(** [needle in hay] *)
Fixpoint str_in (needle hay : string) : bool :=
  startswith hay needle ||
  match hay with
  | EmptyString => false
  | String _ hay' => str_in needle hay'
  end.

(** [s.endswith(suffix)] *)
Fixpoint endswith (s suffix : string) : bool :=
  (if decide (s = suffix) then true else false) ||
  match s with
  | EmptyString => false
  | String _ s' => endswith s' suffix
  end.

(** [c in s] for a single character. *)
Fixpoint has_char (c : ascii) (s : string) : bool :=
  match s with
  | EmptyString => false
  | String a s' => (if decide (a = c) then true else false) || has_char c s'
  end.

(** [sum(1 for c in s if c.isupper())] *)
Fixpoint count_upper (s : string) : nat :=
  match s with
  | EmptyString => 0
  | String c s' => (if isupper c then 1 else 0) + count_upper s'
  end.

(** [sep.join(l)] *)
Fixpoint join (sep : string) (l : list string) : string :=
  match l with
  | [] => ""
  | [x] => x
  | x :: l' => x +:+ sep +:+ join sep l'
  end.

(** [c.isspace()], also the class [\s] of [re], on the code points below
    256: tab to carriage return, the four separators 28 to 31, the space,
    next-line and the no-break space. *)
Definition isspace (c : ascii) : bool :=
  let n := Ascii.N_of_ascii c in
  ((9 <=? n)%N && (n <=? 13)%N) || ((28 <=? n)%N && (n <=? 32)%N)
  || (n =? 133)%N || (n =? 160)%N.

(** [s.lstrip()], [s.rstrip()] and [s.strip()] *)
Fixpoint lstrip (s : string) : string :=
  match s with
  | EmptyString => EmptyString
  | String c s' => if isspace c then lstrip s' else s
  end.

Fixpoint rstrip (s : string) : string :=
  match s with
  | EmptyString => EmptyString
  | String c s' =>
      match rstrip s' with
      | EmptyString => if isspace c then EmptyString else String c EmptyString
      | r => String c r
      end
  end.

Definition strip (s : string) : string := rstrip (lstrip s).

(** The string without the prefix [p], when it starts with [p]. *)
Fixpoint after_prefix (p s : string) {struct p} : option string :=
  match p, s with
  | EmptyString, _ => Some s
  | String a p', String b s' => if decide (a = b) then after_prefix p' s' else None
  | String _ _, EmptyString => None
  end.

(** [s.split(newline)]: never empty, one more piece than newlines. *)
Fixpoint split_lines (s : string) : list string :=
  match s with
  | EmptyString => [EmptyString]
  | String c s' =>
      if decide (c = "010"%char) then EmptyString :: split_lines s'
      else match split_lines s' with
           | line :: lines => String c line :: lines
           | [] => [String c EmptyString]
           end
  end.

(** The separator of lines. *)
Definition newline : string := String "010"%char EmptyString.

End Text.

(** ** The fragment of [re] used by the filter

    Patterns are sequences of single-character atoms, each optionally
    starred: a literal character, an escaped character, and [.], which
    matches every character but the newline. *)

Module Re.

Inductive char_class : Type :=
| Chr (c : ascii)
| AnyChar.

Inductive item : Type :=
| One (cl : char_class)
| Star (cl : char_class).

Definition class_matches (cl : char_class) (c : ascii) : bool :=
  match cl with
  | Chr a => if decide (a = c) then true else false
  | AnyChar => if decide (c = "010"%char) then false else true
  end.

(** Reading a pattern: [\x] is the literal [x], [.] is [AnyChar], a
    following [*] stars the atom. *)
Fixpoint compile (r : string) : list item :=
  match r with
  | EmptyString => []
  | String "\"%char (String c r') =>
      match r' with
      | String "*"%char r'' => Star (Chr c) :: compile r''
      | _ => One (Chr c) :: compile r'
      end
  | String c r' =>
      let cl := if decide (c = "."%char) then AnyChar else Chr c in
      match r' with
      | String "*"%char r'' => Star cl :: compile r''
      | _ => One cl :: compile r'
      end
  end.

(** Backtracking matcher anchored at the start of the subject only; a
    starred atom first tries to take one more character. *)
Fixpoint match_here (p : list item) (s : string) {struct p} : bool :=
  match p with
  | [] => true
  | One cl :: p' =>
      match s with
      | String c s' => class_matches cl c && match_here p' s'
      | EmptyString => false
      end
  | Star cl :: p' =>
      (fix star (s : string) : bool :=
         match s with
         | String c s' => (class_matches cl c && star s') || match_here p' s
         | EmptyString => match_here p' s
         end) s
  end.

(** [re.match(pattern, s)] is not [None]. *)
Definition re_match (pattern s : string) : bool :=
  match_here (compile pattern) s.

(** The characters up to the first [>], when there is one. *)
Fixpoint run_to_gt (s : string) : option string :=
  match s with
  | EmptyString => None
  | String c s' =>
      if decide (c = ">"%char) then Some EmptyString
      else String c <$> run_to_gt s'
  end.

(** [re.search(r'<([^>]+)>', s)]: group 1 of the leftmost match. *)
Fixpoint search_angle (s : string) : option string :=
  match s with
  | EmptyString => None
  | String c s' =>
      if decide (c = "<"%char) then
        match run_to_gt s' with
        | Some (String a g) => Some (String a g)
        | _ => search_angle s'
        end
      else search_angle s'
  end.

End Re.

(** ** Records passed around as dictionaries *)

(** [d.get(key, default)] on a dictionary whose values are strings. *)
Definition get (d : gmap string string) (key dflt : string) : string :=
  default dflt (d !! key).

(** ** [email_filter.py] *)

Module EmailFilter.
Import Text Re.

Definition NO_REPLY_PATTERNS : list string :=
  [ "noreply@.*"; "no-reply@.*"; "donotreply@.*"; "do-not-reply@.*";
    "notifications@.*"; "alerts@.*"; "automated@.*"; "system@.*";
    "mailer-daemon@.*"; "postmaster@.*" ].

Definition SUSPICIOUS_SENDERS : list string :=
  [ ".*@.*paypal\..*"; ".*@.*banking\..*"; ".*@.*amazon\..*";
    ".*@.*ebay\..*"; ".*@.*lottery\..*"; ".*@.*winner\..*";
    ".*@.*prize\..*"; ".*@.*kilpailu\..*"; ".*@.*arvonta\..*";
    ".*voita@.*" ].

Definition WHITELIST_DOMAINS : list string :=
  [ "paypal.com"; "amazon.com"; "amazon.co.uk"; "ebay.com"; "google.com";
    "microsoft.com"; "apple.com"; "facebook.com"; "linkedin.com" ].

Definition SPAM_KEYWORDS : list string :=
  [ "lottery"; "winner"; "million dollars"; "inheritance"; "bitcoin";
    "investment opportunity"; "claim your"; "free money"; "jackpot";
    "casino"; "get rich"; "earn money fast"; "prize winner";
    "voita"; "arvonta"; "kilpailu"; "ilmainen"; "voittaja";
    "act now"; "limited time"; "expires today"; "urgent action required";
    "verify your account"; "suspended account"; "click here immediately";
    "confirm your identity"; "update payment information";
    "xxx"; "adult"; "singles"; "dating";
    "viagra"; "cialis"; "pharmacy"; "pills"; "medication" ].

Definition suspicious_extensions : list string :=
  [ ".exe"; ".zip"; ".rar"; ".bat"; ".cmd"; ".scr" ].

Definition url_shorteners : list string :=
  [ "bit.ly"; "tinyurl.com"; "goo.gl"; "ow.ly"; "t.co" ].

Definition payment_keywords : list string :=
  [ "receipt"; "payment"; "invoice"; "transaction" ].

Definition payment_domains : list string :=
  [ "paypal"; "stripe"; "square"; "venmo" ].

Definition is_no_reply_address (email_address : string) : bool :=
  let email_lower := lower email_address in
  existsb (fun pattern => re_match pattern email_lower) NO_REPLY_PATTERNS.

(** Lines 116-120: the address between angle brackets, when the string
    has both brackets and the search succeeds. *)
Definition address_part (email_address : string) : string :=
  if has_char "<"%char email_address && has_char ">"%char email_address then
    match search_angle email_address with
    | Some group1 => group1
    | None => email_address
    end
  else email_address.

Definition is_suspicious_sender (email_address : string) : bool :=
  let email_address := address_part email_address in
  let email_lower := lower email_address in
  if existsb (fun domain => endswith email_lower ("@" +:+ domain))
       WHITELIST_DOMAINS
  then false
  else existsb (fun pattern => re_match pattern email_lower)
         SUSPICIOUS_SENDERS.

(** The accumulator [(score, reasons)] and one [score += pts;
    reasons.append(reason)] step. *)
Definition tally : Type := (Q * list string)%type.

Definition add (pts : Q) (reason : string) (acc : tally) : tally :=
  ((fst acc + pts)%Q, snd acc ++ [reason]).

(** [a / b] on two [int]s: raises [ZeroDivisionError] when [b] is 0. *)
Definition truediv (a b : nat) : option Q :=
  match b with
  | O => None
  | S _ => Some (inject_Z (Z.of_nat a) / inject_Z (Z.of_nat b))%Q
  end.

Definition calculate_spam_score (email_data : gmap string string)
    : option tally :=
  let score_reasons : tally := (0%Q, []) in
  let subject := lower (get email_data "subject" "") in
  let body := lower (get email_data "body" "") in
  let from_address := lower (get email_data "from" "") in
  let score_reasons :=
    if is_no_reply_address from_address
    then add (3 # 10) "No-reply address" score_reasons
    else score_reasons in
  let score_reasons :=
    if is_suspicious_sender from_address
    then add (5 # 10) "Suspicious sender pattern" score_reasons
    else score_reasons in
  let found_keywords :=
    List.filter (fun keyword => str_in keyword subject || str_in keyword body)
      SPAM_KEYWORDS in
  let spam_keyword_count := length found_keywords in
  let score_reasons :=
    if (0 <? spam_keyword_count)%nat then
      let keyword_score :=
        Qmin (5 # 10) (inject_Z (Z.of_nat spam_keyword_count) * (1 # 10)) in
      add keyword_score
        ("Spam keywords found: " +:+ join ", " (take 5 found_keywords))
        score_reasons
    else score_reasons in
  score_reasons ←
    match subject with
    | EmptyString => Some score_reasons
    | String _ _ =>
        caps_ratio ← truediv (count_upper subject) (String.length subject);
        Some (if Qle_bool caps_ratio (5 # 10) then score_reasons
              else add (2 # 10) "Excessive capitalization" score_reasons)
    end;
  let score_reasons :=
    fold_left
      (fun acc ext =>
         if str_in ext body
         then add (3 # 10) ("Suspicious attachment type: " +:+ ext) acc
         else acc)
      suspicious_extensions score_reasons in
  let score_reasons :=
    fold_left
      (fun acc shortener =>
         if str_in shortener body
         then add (2 # 10) ("URL shortener detected: " +:+ shortener) acc
         else acc)
      url_shorteners score_reasons in
  Some (Qmin 1 (fst score_reasons), snd score_reasons).

(** The reason returned with the verdict.  [High_spam_score s rs] stands
    for the text built from the score to two decimals and the reasons
    joined by a semicolon; [Payment_processor d] for the text naming the
    processor [d]; [No_reason] for the empty string. *)
Inductive skip_reason : Type :=
| No_reply_address
| High_spam_score (spam_score : Q) (reasons : list string)
| Payment_processor (domain : string)
| No_reason.

(** Lines 239-243: the two nested loops, leaving at the first hit. *)
Fixpoint payment_rule (keywords : list string) (subject from_lower : string)
    : option string :=
  match keywords with
  | [] => None
  | keyword :: keywords' =>
      if str_in keyword subject then
        match List.find (fun domain => str_in domain from_lower)
                payment_domains with
        | Some domain => Some domain
        | None => payment_rule keywords' subject from_lower
        end
      else payment_rule keywords' subject from_lower
  end.

Definition should_skip_email (email_data : gmap string string)
    (spam_threshold : Q) : option (bool * skip_reason) :=
  let from_address := get email_data "from" "" in
  if is_no_reply_address from_address then Some (true, No_reply_address)
  else
    '(spam_score, reasons) ← calculate_spam_score email_data;
    if Qle_bool spam_threshold spam_score
    then Some (true, High_spam_score spam_score reasons)
    else
      let subject := lower (get email_data "subject" "") in
      match payment_rule payment_keywords subject (lower from_address) with
      | Some domain => Some (true, Payment_processor domain)
      | None => Some (false, No_reason)
      end.

(** The string starts with [scheme] and goes on with a character that is
    not white space. *)
Definition scheme_at (scheme s : string) : bool :=
  match after_prefix scheme s with
  | Some (String c _) => negb (isspace c)
  | _ => false
  end.

(** [re.match(r'https?://[^\s]+', s)] is not [None]: with or without the
    optional letter, the scheme and at least one character that is not
    white space. *)
Definition url_at (s : string) : bool :=
  scheme_at "https://" s || scheme_at "http://" s.

(** [re.sub(r'https?://[^\s]+', '[URL REMOVED]', s)], scanning from the
    left: where a match starts the placeholder is written and the
    characters up to the next white space are dropped ([in_match]);
    elsewhere the character is copied. *)
Fixpoint sub_urls (in_match : bool) (s : string) : string :=
  match s with
  | EmptyString => EmptyString
  | String c s' =>
      if in_match then
        if isspace c then String c (sub_urls false s') else sub_urls true s'
      else if url_at s then "[URL REMOVED]" +:+ sub_urls true s'
      else String c (sub_urls false s')
  end.

Definition max_body_length : nat := 5000.

Definition sanitize_email_for_response (email_data : gmap string string)
    : gmap string string :=
  let sanitized := email_data in
  let body := get sanitized "body" "" in
  let body := sub_urls false body in
  let sanitized := <["body" := body]> sanitized in
  if (max_body_length <? String.length body)%nat
  then <["body" := String.substring 0 max_body_length body
                   +:+ "... [TRUNCATED]"]> sanitized
  else sanitized.

End EmailFilter.

(** ** [email_processor.py]: classification *)

Module EmailProcessor.
Import Text.

(** The dictionary [categories], in insertion order. *)
Definition categories : list (string * list string) :=
  [ ("complaint",
     [ "complaint"; "disappointed"; "unhappy"; "terrible"; "awful"; "poor";
       "unsatisfied"; "frustrated"; "upset"; "angry"; "annoyed";
       "dissatisfied"; "problem with"; "not working"; "does not work";
       "failed"; "failing"; "issue with"; "bad experience"; "bad service";
       "poor quality" ]);
    ("product_support",
     [ "login"; "password"; "error"; "not working"; "help"; "how to";
       "does not work"; "broken"; "bug"; "technical"; "support";
       "assistance"; "problem"; "troubleshoot"; "issue"; "fix";
       "solution" ]);
    ("feature_request",
     [ "feature"; "suggestion"; "improve"; "enhancement"; "add"; "missing";
       "should have"; "would be nice"; "could you add"; "please include";
       "consider adding"; "new feature"; "functionality"; "capability" ]);
    ("billing_question",
     [ "bill"; "charge"; "payment"; "refund"; "subscription"; "price";
       "cost"; "discount"; "invoice"; "credit card"; "transaction";
       "receipt"; "cancellation"; "renewal"; "billing"; "charged"; "fee";
       "pricing" ]);
    ("general_feedback",
     [ "thank"; "great"; "love"; "awesome"; "excellent"; "amazing"; "good";
       "appreciate"; "feedback"; "enjoyed"; "wonderful"; "fantastic";
       "satisfied"; "helpful"; "impressive" ]);
    ("urgent_request",
     [ "urgent"; "emergency"; "asap"; "immediate"; "critical"; "important";
       "time sensitive"; "deadline"; "quickly"; "rush"; "priority";
       "immediately"; "as soon as possible"; "promptly"; "fast"; "today" ]);
    ("spam",
     [ "lottery"; "million dollars"; "bitcoin"; "investment opportunity";
       "inheritance"; "claim your"; "free money"; "winner"; "jackpot";
       "casino"; "earn money fast"; "get rich" ]) ].

Definition priority_order : list string :=
  [ "urgent_request"; "complaint"; "billing_question"; "product_support";
    "feature_request"; "spam"; "general_feedback"; "customer_inquiry" ].

(** Lines 484-489: one pass over [categories], filling
    [category_matches] and [matched_keywords]. *)
Definition collect_matches (text : string)
    : gmap string (list string) * list string :=
  fold_left
    (fun '(category_matches, matched_keywords) '(category, keywords) =>
       let hits := List.filter (fun keyword => str_in keyword text) keywords in
       (<[category := hits]> category_matches, matched_keywords ++ hits))
    categories (∅, []).

Definition _categorize_email (email_data : gmap string string)
    : string * list string :=
  let subject := lower (get email_data "subject" "") in
  let body := lower (get email_data "body" "") in
  let text := subject +:+ " " +:+ body in
  let '(category_matches, matched_keywords) := collect_matches text in
  let matched_category :=
    List.find
      (fun category =>
         match category_matches !! category with
         | Some (_ :: _) => true
         | _ => false
         end)
      priority_order in
  match matched_category with
  | None => ("customer_inquiry", [])
  | Some category => (category, matched_keywords)
  end.

Definition positive_words : list string :=
  [ "good"; "great"; "excellent"; "wonderful"; "amazing"; "love"; "like";
    "happy"; "pleased"; "satisfied"; "thank"; "thanks"; "helpful";
    "appreciate"; "awesome"; "fantastic"; "perfect"; "best"; "impressed" ].

Definition negative_words : list string :=
  [ "bad"; "poor"; "terrible"; "awful"; "horrible"; "disappointed"; "upset";
    "angry"; "unhappy"; "not working"; "problem"; "issue"; "broken";
    "error"; "failed"; "wrong"; "worst"; "hate"; "dislike"; "annoyed";
    "frustrating" ].

Definition _analyze_sentiment (email_data : gmap string string) : string :=
  let text :=
    lower (get email_data "subject" "" +:+ " " +:+ get email_data "body" "") in
  let positive_count :=
    length (List.filter (fun word => str_in word text) positive_words) in
  let negative_count :=
    length (List.filter (fun word => str_in word text) negative_words) in
  if (negative_count <? positive_count)%nat then "positive"
  else if (positive_count <? negative_count)%nat then "negative"
  else "neutral".

(** [x in l] for a list of strings. *)
Definition mem (x : string) (l : list string) : bool :=
  existsb (String.eqb x) l.

Definition _determine_priority (email_data : gmap string string)
    (category sentiment : string) : string :=
  if mem category ["complaint"; "urgent_request"] then "high"
  else if mem category ["product_support"; "billing_question"]
          || String.eqb sentiment "negative" then "medium"
  else "low".

(** The double quote. *)
Definition quote : ascii := "034"%char.

(** The longest prefix without double quote and opening bracket, and what
    follows it. *)
Fixpoint span_name (s : string) : string * string :=
  match s with
  | EmptyString => (EmptyString, EmptyString)
  | String c s' =>
      if decide (c = quote \/ c = "<"%char) then (EmptyString, s)
      else let '(name, rest) := span_name s' in (String c name, rest)
  end.

(** The characters before the first closing bracket and those after
    it. *)
Fixpoint split_at_gt (s : string) : option (string * string) :=
  match s with
  | EmptyString => None
  | String c s' =>
      if decide (c = ">"%char) then Some (EmptyString, s')
      else '(inside, after) ← split_at_gt s'; Some (String c inside, after)
  end.

Definition drop_quote (s : string) : string :=
  match s with
  | String c s' => if decide (c = quote) then s' else s
  | EmptyString => s
  end.

(** Line 430 searches the pattern made of: start, an optional quote, one
    or more characters other than quote and opening bracket (group 1), an
    optional quote, white space, an opening bracket, one or more
    characters other than the closing bracket, a closing bracket, end.
    The end is the end of the string or a last newline.  Group 1 is
    greedy and what follows it cannot start inside its run, so it is the
    whole run. *)
Definition _extract_sender_name (from_address : string) : option string :=
  if has_char "<"%char from_address && has_char ">"%char from_address then
    let '(group1, rest) := span_name (drop_quote from_address) in
    match group1 with
    | EmptyString => None
    | String _ _ =>
        match lstrip (drop_quote rest) with
        | String "<"%char tail =>
            match split_at_gt tail with
            | Some (String _ _, after) =>
                if decide (after = EmptyString \/ after = newline)
                then Some (strip group1) else None
            | _ => None
            end
        | _ => None
        end
    end
  else None.

(** The dictionary [parsed]; the list stored under [matched_keywords] is
    returned beside it. *)
Definition parse_email_for_response (email_data : gmap string string)
    : gmap string string * list string :=
  let parsed : gmap string string :=
    <["references" := get email_data "references" ""]>
      (<["message_id" := get email_data "message_id" ""]>
         (<["date" := get email_data "date" ""]>
            (<["body" := get email_data "body" ""]>
               (<["subject" := get email_data "subject" ""]>
                  (<["to" := get email_data "to" ""]>
                     (<["from" := get email_data "from" ""]> ∅)))))) in
  let sender_name := _extract_sender_name (get parsed "from" "") in
  let parsed :=
    match sender_name with
    | Some (String c name) => <["sender_name" := String c name]> parsed
    | _ => parsed
    end in
  let '(category, keywords) := _categorize_email parsed in
  let parsed := <["category" := category]> parsed in
  let sentiment := _analyze_sentiment parsed in
  let parsed := <["sentiment" := sentiment]> parsed in
  let priority := _determine_priority parsed category sentiment in
  let parsed := <["priority" := priority]> parsed in
  (parsed, keywords).

Definition header_prefixes : list string :=
  [ "Subject:"; "From:"; "To:"; "Date:"; "Re:" ].

(** Lines 322-340: the loop over the lines, with its flag. *)
Fixpoint clean_lines (skip_next_empty : bool) (lines : list string)
    : list string :=
  match lines with
  | [] => []
  | line :: lines' =>
      if existsb (startswith (strip line)) header_prefixes
      then clean_lines true lines'
      else if skip_next_empty && bool_decide (strip line = EmptyString)
      then clean_lines false lines'
      else line :: clean_lines false lines'
  end.

Definition _clean_email_body (body : string) : string :=
  match body with
  | EmptyString => body
  | String _ _ =>
      let lines := split_lines body in
      let cleaned_lines := clean_lines false lines in
      let cleaned_body := strip (join newline cleaned_lines) in
      match cleaned_body with
      | EmptyString => body
      | String _ _ => cleaned_body
      end
  end.

End EmailProcessor.

(** ** [email_tracker.py]: the history ledger *)

Module EmailTracker.
Import Text.

(** Microseconds in a day and in an hour ([timedelta(days=1)],
    [timedelta(hours=1)]). *)
Definition day : Z := 86400000000.
Definition hour : Z := 3600000000.

(** The value stored under an e-mail id, with the five keys
    [mark_as_processed] writes. *)
Record LedgerRecord : Type := {
  processed_at : Z;
  subject : string;
  from : string;
  category : string;
  response_sent : bool
}.

(** The dictionary [processed_emails]; either key may be missing from a
    loaded file. *)
Record History : Type := {
  emails : option (gmap string LedgerRecord);
  last_cleanup : option Z
}.

Record t : Type := {
  history_file : string;
  max_history_days : Z;
  processed_emails : History
}.

(** [self.processed_emails.get("emails", {})] *)
Definition get_emails (self : t) : gmap string LedgerRecord :=
  default ∅ (emails (processed_emails self)).

(** The clock is read once per call: every [datetime.now()] of one call
    yields the argument [now]. Saving to the file leaves the state in
    memory as it is and is left out. *)
Definition _cleanup_old_entries (self : t) (now : Z) : t :=
  let cutoff_date := (now - max_history_days self * day)%Z in
  let emails_to_remove :=
    (List.filter
       (fun '(email_id, data) => (processed_at data <? cutoff_date)%Z)
       (map_to_list (get_emails self))).*1 in
  let history := processed_emails self in
  let history :=
    {| emails :=
         (fun m => fold_left (fun m email_id => delete email_id m)
                     emails_to_remove m) <$> emails history;
       last_cleanup := last_cleanup history |} in
  let history :=
    match emails_to_remove with
    | [] => history
    | _ :: _ => {| emails := emails history; last_cleanup := Some now |}
    end in
  {| history_file := history_file self;
     max_history_days := max_history_days self;
     processed_emails := history |}.

Definition is_processed (self : t) (email_id : string) : bool :=
  bool_decide (is_Some (get_emails self !! email_id)).

(** [now] is the instant of this call, [now_cleanup] the instant of the
    cleanup it may start. *)
Definition mark_as_processed (self : t) (now now_cleanup : Z)
    (email_id : string) (email_data : gmap string string)
    (response_sent : bool) : t :=
  let history := processed_emails self in
  let record :=
    {| processed_at := now;
       subject := String.substring 0 100 (get email_data "subject" "");
       from := get email_data "from" "";
       category := get email_data "category" "unknown";
       response_sent := response_sent |} in
  let history :=
    {| emails := Some (<[email_id := record]> (default ∅ (emails history)));
       last_cleanup := last_cleanup history |} in
  let self :=
    {| history_file := history_file self;
       max_history_days := max_history_days self;
       processed_emails := history |} in
  let last_cleanup := default now (last_cleanup history) in
  if (1 <=? (now - last_cleanup) `div` day)%Z
  then _cleanup_old_entries self now_cleanup
  else self.

Definition count_sender_emails (self : t) (now : Z) (sender : string)
    (hours : Z) : nat :=
  let cutoff_time := (now - hours * hour)%Z in
  let sender_lower := lower sender in
  length
    (List.filter
       (fun email_data =>
          (cutoff_time <=? processed_at email_data)%Z
          && String.eqb (lower (from email_data)) sender_lower)
       (map_to_list (get_emails self)).*2).

(** The dictionary returned by [get_processing_stats]. *)
Record Stats : Type := {
  total_processed : nat;
  responses_sent : nat;
  categories : gmap string nat
}.

Definition get_processing_stats (self : t) : Stats :=
  let emails := get_emails self in
  if decide (emails = ∅)
  then {| total_processed := 0; responses_sent := 0; categories := ∅ |}
  else
    let values := (map_to_list emails).*2 in
    {| total_processed := size emails;
       responses_sent := length (List.filter response_sent values);
       categories :=
         fold_left
           (fun categories email_data =>
              let category := category email_data in
              <[category := (default 0 (categories !! category) + 1)%nat]>
                categories)
           values ∅ |}.

Definition get_recent_senders (self : t) (now : Z) (hours : Z) : gset string :=
  let cutoff_time := (now - hours * hour)%Z in
  fold_left
    (fun recent_senders email_data =>
       if (cutoff_time <=? processed_at email_data)%Z
       then {[ lower (from email_data) ]} ∪ recent_senders
       else recent_senders)
    (map_to_list (get_emails self)).*2 ∅.

End EmailTracker.

(** ** [main.py]: the decision *)

Module EmailAutomationSystem.

Record Config : Type := {
  max_emails_per_sender : Z;
  spam_threshold : Q;
  rate_limit_window : Z
}.

(** The values set by [__init__]. *)
Definition default_config : Config :=
  {| max_emails_per_sender := 3;
     spam_threshold := 5 # 10;
     rate_limit_window := 24 |}.

Record t : Type := {
  email_tracker : EmailTracker.t;
  config : Config
}.

(** The reason returned with the verdict; [Rate_limit_exceeded m w] is
    the text naming the limit [m] and the window of [w] hours, [Ok] the
    empty string. *)
Inductive reason : Type :=
| Already_processed
| Skip (r : EmailFilter.skip_reason)
| Rate_limit_exceeded (max_emails : Z) (window : Z)
| Ok.

Definition should_process_email (self : t) (now : Z)
    (email_data : gmap string string) : option (bool * reason) :=
  let email_id := email_data !! "id" in
  let from_address := get email_data "from" "" in
  if match email_id with
     | Some i => EmailTracker.is_processed (email_tracker self) i
     | None => false
     end
  then Some (false, Already_processed)
  else
    '(should_skip, skip_reason) ←
      EmailFilter.should_skip_email email_data (spam_threshold (config self));
    if should_skip : bool then Some (false, Skip skip_reason)
    else
      let sender_count :=
        EmailTracker.count_sender_emails (email_tracker self) now
          from_address (rate_limit_window (config self)) in
      if (max_emails_per_sender (config self) <=? Z.of_nat sender_count)%Z
      then Some (false,
                 Rate_limit_exceeded (max_emails_per_sender (config self))
                   (rate_limit_window (config self)))
      else Some (true, Ok).

(** Lines 165-171: the subject of the reply. *)
Definition reply_subject (original_subject : string) : string :=
  if Text.startswith (Text.lower original_subject) "re:"
  then original_subject
  else "Re: " +:+ original_subject.

(** The counters of [self.stats]. *)
Record Statistics : Type := {
  total_processed : nat;
  responses_sent : nat;
  emails_skipped : nat;
  errors : nat;
  categories : gmap string nat
}.

(** What a called method does: it returns a value or raises. *)
Inductive outcome (A : Type) : Type :=
| Returned (a : A)
| Raised.
Arguments Returned {A} a.
Arguments Raised {A}.

(** The arguments of one call of [send_email] (lines 182-189). *)
Record Reply : Type := {
  to_address : string;
  subject : string;
  body : string;
  message_id : string;
  references : string
}.

(** What one call of [process_single_email] leaves: the value returned,
    the ledger, the counters, and the calls of [send_email] it made. *)
Record Run : Type := {
  result : bool;
  tracker_after : EmailTracker.t;
  stats_after : Statistics;
  send_calls : list Reply
}.

Definition count_error (stats : Statistics) : Statistics :=
  {| total_processed := total_processed stats;
     responses_sent := responses_sent stats;
     emails_skipped := emails_skipped stats;
     errors := errors stats + 1;
     categories := categories stats |}.

Section ProcessSingleEmail.

(** The two calls that leave the program: the model behind
    [generate_response], which returns a string or raises, and the mail
    server behind [send_email], which returns the success status. *)
Variable generate_response : gmap string string -> string -> outcome string.
Variable send_email : Reply -> bool.

(** Lines 91-219.  [now] is the instant at which [should_process_email]
    counts the sender's records, [now_mark] and [now_cleanup] are the
    instants of the call of [mark_as_processed].  The ledger is keyed by
    strings, so the function is modelled on the records that carry an
    [id], as the records built when the mail is fetched do; on the others
    the model gives [None]. *)
Definition process_single_email (self : t) (stats : Statistics)
    (now now_mark now_cleanup : Z) (email_data : gmap string string)
    : option Run :=
  email_id ← email_data !! "id";
  let mark_as_processed data response_sent :=
    EmailTracker.mark_as_processed (email_tracker self) now_mark now_cleanup
      email_id data response_sent in
  (* lines 209-219 *)
  let on_exception stats :=
    {| result := false;
       tracker_after := mark_as_processed email_data false;
       stats_after := count_error stats;
       send_calls := [] |} in
  Some
    match email_data !! "subject", email_data !! "from" with
    | Some _, Some _ =>
        match should_process_email self now email_data with
        | None => on_exception stats
        | Some (false, _) =>
            {| result := true;
               tracker_after := mark_as_processed email_data false;
               stats_after :=
                 {| total_processed := total_processed stats;
                    responses_sent := responses_sent stats;
                    emails_skipped := emails_skipped stats + 1;
                    errors := errors stats;
                    categories := categories stats |};
               send_calls := [] |}
        | Some (true, _) =>
            let '(parsed_email, _) :=
              EmailProcessor.parse_email_for_response email_data in
            let category := get parsed_email "category" "unknown" in
            let stats :=
              {| total_processed := total_processed stats + 1;
                 responses_sent := responses_sent stats;
                 emails_skipped := emails_skipped stats;
                 errors := errors stats;
                 categories :=
                   <[category := (default 0 (categories stats !! category) + 1)%nat]>
                     (categories stats) |} in
            if String.eqb category "spam" then
              {| result := true;
                 tracker_after := mark_as_processed parsed_email false;
                 stats_after := stats;
                 send_calls := [] |}
            else
              let sanitized_email :=
                EmailFilter.sanitize_email_for_response parsed_email in
              match generate_response sanitized_email category with
              | Raised => on_exception stats
              | Returned EmptyString =>
                  {| result := false;
                     tracker_after := email_tracker self;
                     stats_after := count_error stats;
                     send_calls := [] |}
              | Returned response =>
                  let original_subject := get parsed_email "subject" "" in
                  match parsed_email !! "from" with
                  | None => on_exception stats
                  | Some to_address =>
                      let reply :=
                        {| to_address := to_address;
                           subject := reply_subject original_subject;
                           body := response;
                           message_id := get parsed_email "message_id" "";
                           references := get parsed_email "references" "" |} in
                      let success := send_email reply in
                      {| result := success;
                         tracker_after := mark_as_processed parsed_email success;
                         stats_after :=
                           if success then
                             {| total_processed := total_processed stats;
                                responses_sent := responses_sent stats + 1;
                                emails_skipped := emails_skipped stats;
                                errors := errors stats;
                                categories := categories stats |}
                           else count_error stats;
                         send_calls := [reply] |}
                  end
              end
        end
    | _, _ => on_exception stats
    end.

End ProcessSingleEmail.

End EmailAutomationSystem.

(** ** [gemini_email.py]: the parts that do not call the model *)

Module GeminiEmailResponder.
Import Text.

(** The configured temperature and the two counters of the rate limit
    (seconds as rationals). *)
Record t : Type := {
  temperature : Q;
  requests_count : Z;
  last_request_time : Q
}.

(** [email_type in l], for an [email_type] that may be [None]. *)
Definition type_in (email_type : option string) (l : list string) : bool :=
  match email_type with
  | Some ty => existsb (String.eqb ty) l
  | None => false
  end.

Definition _get_temperature_for_type (self : t) (email_type : option string)
    : Q :=
  if type_in email_type ["product_support"; "billing_question"; "urgent_request"]
  then Qmax (1 # 10) (temperature self - (3 # 10))
  else if type_in email_type ["complaint"]
  then Qmax (3 # 10) (temperature self - (1 # 10))
  else if type_in email_type ["feature_request"; "general_feedback"]
  then Qmin (9 # 10) (temperature self + (1 # 10))
  else temperature self.

(** The state after the call and the time slept, if any. *)
Definition _handle_rate_limiting (self : t) (current_time : Q)
    (max_requests_per_minute : Z) : t * option Q :=
  let elapsed := (current_time - last_request_time self)%Q in
  if negb (Qle_bool elapsed 60) then
    ({| temperature := temperature self;
        requests_count := 0;
        last_request_time := last_request_time self |}, None)
  else if (max_requests_per_minute <=? requests_count self)%Z then
    let wait_time := (60 - elapsed + 1)%Q in
    ({| temperature := temperature self;
        requests_count := 0;
        last_request_time := last_request_time self |}, Some wait_time)
  else (self, None).

Definition header_prefixes : list string :=
  [ "Subject:"; "From:"; "To:"; "Date:"; "Re:" ].

(** Lines 183-199: the loop over the lines, with its flag. *)
Fixpoint clean_lines (skip_next_empty : bool) (lines : list string)
    : list string :=
  match lines with
  | [] => []
  | line :: lines' =>
      if existsb (startswith line) header_prefixes
      then clean_lines true lines'
      else if skip_next_empty && bool_decide (strip line = EmptyString)
      then clean_lines false lines'
      else line :: clean_lines false lines'
  end.

Definition _clean_response (response_text : string) : string :=
  match response_text with
  | EmptyString => response_text
  | String _ _ =>
      strip (join newline (clean_lines false (split_lines response_text)))
  end.

End GeminiEmailResponder.

(** * Vocabulary of the properties *)

Section Vocabulary.
Import Text Re EmailFilter.

(** A character that is not a letter: lowering maps it to itself and
    nothing else to it. *)
Definition caseless (c : ascii) : bool :=
  let n := Ascii.N_of_ascii c in negb ((65 <=? n)%N && (n <=? 90)%N)
                                 && negb ((97 <=? n)%N && (n <=? 122)%N).

(** The items of a pattern made of literal characters. *)
Definition literal (pre : string) : list item :=
  (fun c => One (Chr c)) <$> String.list_ascii_of_string pre.

(** The literal each no-reply pattern starts with. *)
Definition NO_REPLY_PREFIXES : list string :=
  [ "noreply@"; "no-reply@"; "donotreply@"; "do-not-reply@";
    "notifications@"; "alerts@"; "automated@"; "system@";
    "mailer-daemon@"; "postmaster@" ].

(** The address is of the form local@domain with the domain, in lower
    case, an entry of the whitelist. *)
Definition whitelisted (address : string) : Prop :=
  exists local domain,
    address = local +:+ "@" +:+ domain /\ In (lower domain) WHITELIST_DOMAINS.

(** Lines 125-127: the test made on the lowered address. *)
Definition whitelist_check (email_lower : string) : bool :=
  existsb (fun domain => endswith email_lower ("@" +:+ domain))
    WHITELIST_DOMAINS.

(** The three texts the scorer reads. *)
Definition subject_of (e : gmap string string) : string :=
  lower (get e "subject" "").
Definition body_of (e : gmap string string) : string :=
  lower (get e "body" "").
Definition from_of (e : gmap string string) : string :=
  lower (get e "from" "").

(** The entries of [l] found in [text], and a number of entries as a
    rational. *)
Definition hits (l : list string) (text : string) : list string :=
  List.filter (fun x => str_in x text) l.
Definition count (l : list string) : Q := inject_Z (Z.of_nat (length l)).

(** The six contributions to the score. *)
Definition no_reply_points (e : gmap string string) : Q :=
  if is_no_reply_address (from_of e) then 3 # 10 else 0.

Definition sender_points (e : gmap string string) : Q :=
  if is_suspicious_sender (from_of e) then 5 # 10 else 0.

Definition keyword_hits (e : gmap string string) : list string :=
  List.filter (fun k => str_in k (subject_of e) || str_in k (body_of e))
    SPAM_KEYWORDS.

Definition keyword_points (e : gmap string string) : Q :=
  match keyword_hits e with
  | [] => 0
  | _ :: _ => Qmin (5 # 10) (count (keyword_hits e) * (1 # 10))
  end.

(** The capitalisation test on the text it is given. *)
Definition caps_fires (subject : string) : bool :=
  match subject with
  | EmptyString => false
  | String _ _ =>
      negb (Qle_bool (inject_Z (Z.of_nat (count_upper subject))
                      / inject_Z (Z.of_nat (String.length subject)))
              (5 # 10))
  end.

(** The code gives it the subject already in lower case. *)
Definition caps_points (e : gmap string string) : Q :=
  if caps_fires (subject_of e) then 2 # 10 else 0.

Definition attachment_points (e : gmap string string) : Q :=
  count (hits suspicious_extensions (body_of e)) * (3 # 10).

Definition shortener_points (e : gmap string string) : Q :=
  count (hits url_shorteners (body_of e)) * (2 # 10).

Definition total (e : gmap string string) : Q :=
  no_reply_points e + sender_points e + keyword_points e + caps_points e
  + attachment_points e + shortener_points e.

Definition reasons_of (e : gmap string string) : list string :=
  (if is_no_reply_address (from_of e) then ["No-reply address"] else [])
  ++ (if is_suspicious_sender (from_of e)
      then ["Suspicious sender pattern"] else [])
  ++ match keyword_hits e with
     | [] => []
     | _ :: _ =>
         ["Spam keywords found: " +:+ join ", " (take 5 (keyword_hits e))]
     end
  ++ (if caps_fires (subject_of e) then ["Excessive capitalization"] else [])
  ++ (String.app "Suspicious attachment type: "
        <$> hits suspicious_extensions (body_of e))
  ++ (String.app "URL shortener detected: "
        <$> hits url_shorteners (body_of e)).

(** More than half of the characters of [subject] are upper-case
    letters. *)
Definition mostly_uppercase (subject : string) : bool :=
  (String.length subject <? 2 * count_upper subject)%nat.

(** The order in which the categories are tried, the table of a
    category, and whether a text holds a keyword of that table. *)
Definition category_order : list string :=
  [ "urgent_request"; "complaint"; "billing_question"; "product_support";
    "feature_request"; "spam"; "general_feedback" ].

Definition keywords_of (category : string) : list string :=
  match List.find (fun entry => String.eqb (fst entry) category)
          EmailProcessor.categories with
  | Some entry => snd entry
  | None => []
  end.

Definition matches_of (text category : string) : list string :=
  List.filter (fun keyword => str_in keyword text) (keywords_of category).

Definition has_match (text category : string) : bool :=
  existsb (fun keyword => str_in keyword text) (keywords_of category).

(** The text the classifier of categories reads. *)
Definition text_of (e : gmap string string) : string :=
  subject_of e +:+ " " +:+ body_of e.

(** The dictionary [category_matches] once every table has been read. *)
Definition matches_map (h : string -> list string) : gmap string (list string) :=
  <["spam" := h "spam"]>
    (<["urgent_request" := h "urgent_request"]>
       (<["general_feedback" := h "general_feedback"]>
          (<["billing_question" := h "billing_question"]>
             (<["feature_request" := h "feature_request"]>
                (<["product_support" := h "product_support"]>
                   (<["complaint" := h "complaint"]> ∅)))))).

(** The category names listed in [config.py]. *)
Definition EMAIL_CATEGORIES : list string :=
  [ "complaint"; "product_support"; "feature_request"; "billing_question";
    "general_feedback"; "urgent_request"; "spam"; "customer_inquiry" ].

End Vocabulary.

Section LedgerVocabulary.
Import Text EmailTracker.

(** The record [mark_as_processed] stores at instant [now]. *)
Definition written_record (now : Z) (email_data : gmap string string)
    (sent : bool) : LedgerRecord :=
  {| processed_at := now;
     subject := String.substring 0 100 (get email_data "subject" "");
     from := get email_data "from" "";
     category := get email_data "category" "unknown";
     response_sent := sent |}.

(** The entries the ledger holds under one id, as they are listed when
    the dictionary is written out. *)
Definition entries_for (email_id : string) (self : EmailTracker.t)
    : list (string * LedgerRecord) :=
  List.filter (fun entry => String.eqb (fst entry) email_id)
    (map_to_list (get_emails self)).

(** The retention cutoff of a cleanup at instant [now]. *)
Definition cutoff_date (self : EmailTracker.t) (now : Z) : Z :=
  (now - max_history_days self * day)%Z.

(** Whether the call at [now] starts a cleanup. *)
Definition cleanup_due (self : EmailTracker.t) (now : Z) : bool :=
  (1 <=? (now - default now (last_cleanup (processed_emails self))) `div` day)%Z.

(** One call of [mark_as_processed] and a run of calls. *)
Record mark_call : Type := {
  call_now : Z;
  call_cleanup : Z;
  call_id : string;
  call_data : gmap string string;
  call_sent : bool
}.

Definition run_marks (self : EmailTracker.t) (calls : list mark_call)
    : EmailTracker.t :=
  fold_left
    (fun self c =>
       mark_as_processed self (call_now c) (call_cleanup c) (call_id c)
         (call_data c) (call_sent c))
    calls self.

(** The record is inside the trailing window of [hours] hours and comes
    from [sender], letter case apart. *)
Definition counted (now hours : Z) (sender : string) (r : LedgerRecord) : bool :=
  (now - hours * hour <=? processed_at r)%Z
  && String.eqb (lower (from r)) (lower sender).

End LedgerVocabulary.

Section MoreVocabulary.
Import Text EmailFilter.

(** The pattern of line 265 matches somewhere in the text. *)
Fixpoint has_url (s : string) : bool :=
  url_at s ||
  match s with
  | EmptyString => false
  | String _ s' => has_url s'
  end.

(** The pattern asks for the literal character [c] once. *)
Definition asks_for (c : ascii) (pattern : list Re.item) : bool :=
  existsb
    (fun it => match it with
               | Re.One (Re.Chr a) => if decide (a = c) then true else false
               | _ => false
               end)
    pattern.

(** The payment rule of lines 235-243 on a record. *)
Definition payment_hit (e : gmap string string) : option string :=
  payment_rule payment_keywords (lower (get e "subject" ""))
    (lower (get e "from" "")).

End MoreVocabulary.

Section MoreLedgerVocabulary.
Import Text EmailTracker.

(** The records of the ledger, in the order of the dictionary. *)
Definition records (self : EmailTracker.t) : list LedgerRecord :=
  (map_to_list (get_emails self)).*2.

(** How many records of a list fall in a category. *)
Definition in_category (c : string) (l : list LedgerRecord) : nat :=
  length (List.filter (fun r => String.eqb (category r) c) l).

(** The record is older than the cutoff of a cleanup at [now]. *)
Definition expired (self : EmailTracker.t) (now : Z) (r : LedgerRecord) : bool :=
  (processed_at r <? cutoff_date self now)%Z.

End MoreLedgerVocabulary.


Section Samples.
Import EmailTracker EmailAutomationSystem.

(** A system with an empty ledger last cleaned at instant 0, a model that
    always answers, a server that always accepts, and an e-mail. *)
Definition sample_system : EmailAutomationSystem.t :=
  {| email_tracker :=
       {| history_file := "processed_emails.json";
          max_history_days := 7;
          processed_emails := {| emails := None; last_cleanup := Some 0%Z |} |};
     config := default_config |}.

Definition sample_statistics : Statistics :=
  {| EmailAutomationSystem.total_processed := 0;
     EmailAutomationSystem.responses_sent := 0;
     emails_skipped := 0;
     errors := 0;
     EmailAutomationSystem.categories := ∅ |}.

Definition sample_model (email_content : gmap string string)
    (email_type : string) : outcome string :=
  Returned "Thank you for your message.".

Definition sample_server (reply : Reply) : bool := true.

Definition sample_email : gmap string string :=
  <["id" := "m1"]>
    (<["subject" := "Question about my order"]>
       (<["from" := "Ann <ann@example.com>"]>
          (<["body" := "Where is my order?"]> ∅))).

End Samples.

Section MoreTextVocabulary.
Import Text.

(** The test of the two cleaning loops: the line starts with one of the
    five header words. *)
Definition header_like (line : string) : bool :=
  existsb (startswith line) EmailProcessor.header_prefixes.

(** The string is empty or made of white space only. *)
Definition blank (s : string) : bool := bool_decide (strip s = EmptyString).

End MoreTextVocabulary.

Section ProcessVocabulary.
Import EmailFilter EmailProcessor EmailAutomationSystem.

(** The record [process_single_email] turns the fetched e-mail into, and
    the call of the model it makes for it. *)
Definition parsed (e : gmap string string) : gmap string string :=
  (parse_email_for_response e).1.

Definition generated
    (generate_response : gmap string string -> string -> outcome string)
    (e : gmap string string) : outcome string :=
  generate_response (sanitize_email_for_response (parsed e))
    (get (parsed e) "category" "unknown").

End ProcessVocabulary.

(** * Properties *)

(** ** Strings *)

Section TextFacts.
Import Text.

Lemma app_String c s1 s2 : String c s1 +:+ s2 = String c (s1 +:+ s2).
Proof. reflexivity. Qed.

Lemma app_empty s : "" +:+ s = s.
Proof. reflexivity. Qed.

Lemma isupper_lower_char c : isupper (lower_char c) = false.
Proof. by destruct c as [[] [] [] [] [] [] [] []]. Qed.

Lemma lower_char_idem c : lower_char (lower_char c) = lower_char c.
Proof. unfold lower_char at 1. by rewrite isupper_lower_char. Qed.

Lemma lower_idem s : lower (lower s) = lower s.
Proof. induction s as [|c s IH]; simpl; [done|]. by rewrite lower_char_idem, IH. Qed.

Lemma lower_char_caseless c d :
  caseless d = true -> (lower_char c = d <-> c = d).
Proof.
  intros Hd. split.
  - intros <-. destruct c as [[] [] [] [] [] [] [] []]; by vm_compute in Hd |- *.
  - intros ->. destruct d as [[] [] [] [] [] [] [] []]; by vm_compute in Hd |- *.
Qed.

Lemma count_upper_lower s : count_upper (lower s) = 0%nat.
Proof.
  induction s as [|c s IH]; simpl; [done|].
  by rewrite isupper_lower_char, IH.
Qed.

Lemma lower_app s1 s2 : lower (s1 +:+ s2) = lower s1 +:+ lower s2.
Proof.
  induction s1 as [|c s1 IH]; [done|].
  rewrite !app_String. simpl. by rewrite IH, app_String.
Qed.

Lemma length_lower s : String.length (lower s) = String.length s.
Proof. induction s as [|c s IH]; simpl; [done|]. by rewrite IH. Qed.

Lemma has_char_lower d s :
  caseless d = true -> has_char d (lower s) = has_char d s.
Proof.
  intros Hd. induction s as [|c s IH]; simpl; [done|].
  rewrite IH. f_equal.
  pose proof (lower_char_caseless c d Hd) as Hc.
  repeat case_decide; tauto.
Qed.

Lemma has_char_app d s1 s2 :
  has_char d (s1 +:+ s2) = has_char d s1 || has_char d s2.
Proof.
  induction s1 as [|c s1 IH]; [done|].
  rewrite app_String. simpl. by rewrite IH, orb_assoc.
Qed.

Lemma startswith_app s p : startswith (p +:+ s) p = true.
Proof.
  induction p as [|c p IH]; [done|].
  rewrite app_String. simpl. by case_decide.
Qed.

Lemma startswith_inv s p :
  startswith s p = true -> exists r, s = p +:+ r.
Proof.
  revert s. induction p as [|a p IH]; intros s H; simpl in *.
  - by exists s.
  - destruct s as [|b s]; [done|]. case_decide; [|done]. subst.
    destruct (IH _ H) as [r ->]. by exists r.
Qed.

Lemma startswith_lower s p :
  startswith s p = true -> startswith (lower s) (lower p) = true.
Proof.
  intros [r ->]%startswith_inv. rewrite lower_app. apply startswith_app.
Qed.

(** Containment survives lowering, for a needle already in lower case. *)
Lemma str_in_lower needle hay :
  lower needle = needle ->
  str_in needle hay = true -> str_in needle (lower hay) = true.
Proof.
  intros Hn. induction hay as [|c hay IH]; simpl.
  - rewrite !orb_false_r. intros H%startswith_lower. by rewrite Hn in H.
  - intros [H|H]%orb_true_iff; apply orb_true_iff.
    + left. apply startswith_lower in H. by rewrite Hn in H.
    + right. by apply IH.
Qed.

Lemma str_in_empty needle :
  str_in needle "" = true -> needle = "".
Proof. simpl. rewrite orb_false_r. by destruct needle. Qed.

Lemma endswith_iff s suffix :
  endswith s suffix = true <-> exists pre, s = pre +:+ suffix.
Proof.
  induction s as [|c s IH]; simpl.
  - rewrite orb_false_r. case_decide; split; try done.
    + intros _. exists "". by subst.
    + intros [pre Hp]. destruct pre; [done|discriminate].
  - rewrite orb_true_iff, IH. split.
    + intros [H|[pre ->]].
      * case_decide; [|done]. exists "". by subst.
      * by exists (String c pre).
    + intros [[|a pre] Hp].
      * left. by case_decide.
      * right. rewrite app_String in Hp. injection Hp as -> ->. by exists pre.
Qed.

(** Splitting the source of a lowered concatenation. *)
Lemma lower_eq_app s a b :
  lower s = a +:+ b ->
  exists s1 s2, s = s1 +:+ s2 /\ lower s1 = a /\ lower s2 = b.
Proof.
  revert s. induction a as [|c a IH]; intros s H.
  - by exists "", s.
  - rewrite app_String in H. destruct s as [|d s]; simpl in H; [discriminate|].
    injection H as Hc Hs. destruct (IH _ Hs) as (s1 & s2 & -> & <- & <-).
    exists (String d s1), s2. simpl. by rewrite Hc.
Qed.

End TextFacts.

(** ** Patterns *)

Section ReFacts.
Import Text Re.

Lemma match_here_star_any s : match_here [Star AnyChar] s = true.
Proof.
  induction s as [|c s IH]; [done|].
  simpl in *. apply orb_true_r.
Qed.

(** A literal followed by [.*] matches exactly the strings that start
    with the literal. *)
Lemma match_here_literal_star pre s :
  match_here (literal pre ++ [Star AnyChar]) s = startswith s pre.
Proof.
  revert s. induction pre as [|a pre IH]; intros s.
  - apply match_here_star_any.
  - destruct s as [|b s]; [done|].
    change (match_here (literal (String a pre) ++ [Star AnyChar]) (String b s))
      with (class_matches (Chr a) b
            && match_here (literal pre ++ [Star AnyChar]) s).
    rewrite IH. simpl. by case_decide.
Qed.

Lemma run_to_gt_app g rest :
  has_char ">" g = false ->
  run_to_gt (g +:+ String ">" rest) = Some g.
Proof.
  induction g as [|c g IH]; intros H.
  - done.
  - rewrite app_String. simpl in *.
    apply orb_false_iff in H as [Hc Hg]. case_decide; [done|].
    by rewrite IH.
Qed.

Lemma search_angle_app name addr rest :
  has_char "<" name = false -> addr <> "" -> has_char ">" addr = false ->
  search_angle (name +:+ String "<" (addr +:+ String ">" rest)) = Some addr.
Proof.
  intros Hn Ha Hg. induction name as [|c name IH].
  - rewrite app_empty. simpl. rewrite run_to_gt_app by done.
    by destruct addr.
  - rewrite app_String. simpl in *.
    apply orb_false_iff in Hn as [Hc Hn]. case_decide; [done|].
    by apply IH.
Qed.

Lemma run_to_gt_lower s : run_to_gt (lower s) = lower <$> run_to_gt s.
Proof.
  induction s as [|c s IH]; [done|]. simpl.
  pose proof (lower_char_caseless c ">" eq_refl) as Hc.
  repeat case_decide; try tauto.
  rewrite IH. by destruct (run_to_gt s).
Qed.

Lemma search_angle_lower s :
  search_angle (lower s) = lower <$> search_angle s.
Proof.
  induction s as [|c s IH]; [done|]. simpl.
  pose proof (lower_char_caseless c "<" eq_refl) as Hc.
  repeat case_decide; try tauto.
  rewrite run_to_gt_lower.
  destruct (run_to_gt s) as [[|a g]|]; simpl; done.
Qed.

End ReFacts.

(** ** The risk scorer *)

Section FilterFacts.
Import Text Re EmailFilter.

Lemma is_no_reply_address_prefix s :
  is_no_reply_address s = existsb (startswith (lower s)) NO_REPLY_PREFIXES.
Proof.
  unfold is_no_reply_address, NO_REPLY_PREFIXES. cbn [existsb].
  rewrite <- !match_here_literal_star. reflexivity.
Qed.

Lemma startswith_before_lt a r pre :
  has_char "<" pre = false ->
  startswith (a +:+ String "<" r) pre = startswith a pre.
Proof.
  revert a. induction pre as [|c pre IH]; intros a H; [done|].
  simpl in H. apply orb_false_iff in H as [Hc Hp].
  case_decide; [done|]. clear Hc.
  destruct a as [|b a].
  - rewrite app_empty. simpl. case_decide; [by subst|done].
  - rewrite app_String. simpl. case_decide; [by apply IH|done].
Qed.

Lemma startswith_has_char c s pre :
  startswith s pre = true -> has_char c pre = true -> has_char c s = true.
Proof.
  intros [r ->]%startswith_inv H. rewrite has_char_app, H. done.
Qed.

(** What stands before the first opening bracket decides alone. *)
Lemma is_no_reply_address_before_lt name rest :
  is_no_reply_address (name +:+ String "<" rest) = is_no_reply_address name.
Proof.
  rewrite !is_no_reply_address_prefix, lower_app.
  change (lower (String "<" rest)) with (String "<" (lower rest)).
  unfold NO_REPLY_PREFIXES. cbn [existsb].
  by rewrite !startswith_before_lt.
Qed.

Lemma is_no_reply_address_no_at s :
  has_char "@" s = false -> is_no_reply_address s = false.
Proof.
  intros H. rewrite is_no_reply_address_prefix.
  apply not_true_is_false. intros (pre & Hin & Hp)%existsb_exists.
  assert (has_char "@" (lower s) = true) as Hl.
  { apply (startswith_has_char _ _ pre Hp).
    unfold NO_REPLY_PREFIXES in Hin. simpl in Hin.
    intuition (subst; reflexivity). }
  rewrite has_char_lower in Hl by done. congruence.
Qed.

Lemma address_part_lower s : address_part (lower s) = lower (address_part s).
Proof.
  unfold address_part. rewrite !has_char_lower by done.
  destruct (has_char "<" s && has_char ">" s); [|done].
  rewrite search_angle_lower. by destruct (search_angle s).
Qed.

Lemma address_part_bracketed name addr :
  has_char "<" name = false -> addr <> "" -> has_char ">" addr = false ->
  address_part (name +:+ "<" +:+ addr +:+ ">") = addr.
Proof.
  intros Hn Ha Hg. unfold address_part.
  change (name +:+ "<" +:+ addr +:+ ">")
    with (name +:+ String "<" (addr +:+ String ">" "")).
  rewrite search_angle_app by done.
  rewrite !has_char_app. simpl. rewrite has_char_app. simpl.
  by rewrite !orb_true_r.
Qed.

Lemma address_part_no_gt s : has_char ">" s = false -> address_part s = s.
Proof. intros H. unfold address_part. by rewrite H, andb_false_r. Qed.

Lemma whitelist_check_iff address :
  whitelist_check (lower address) = true <-> whitelisted address.
Proof.
  unfold whitelist_check, whitelisted. rewrite existsb_exists. split.
  - intros (d & Hd & [pre Hp]%endswith_iff).
    apply lower_eq_app in Hp as (s1 & s2 & -> & _ & H2).
    destruct s2 as [|a dom]; [discriminate|].
    rewrite app_String, app_empty in H2. simpl in H2.
    injection H2 as Ha Hdom.
    apply (lower_char_caseless a "@" eq_refl) in Ha as ->.
    exists s1, dom. by rewrite Hdom.
  - intros (loc & dom & -> & Hd). exists (lower dom). split; [done|].
    apply endswith_iff. exists (lower loc). by rewrite !lower_app.
Qed.

Lemma whitelisted_lower address : whitelisted address -> whitelisted (lower address).
Proof.
  intros (loc & dom & -> & Hd). exists (lower loc), (lower dom).
  by rewrite !lower_app, lower_idem.
Qed.

Lemma is_suspicious_sender_whitelisted s :
  whitelisted (address_part s) -> is_suspicious_sender s = false.
Proof.
  intros H%whitelist_check_iff. unfold is_suspicious_sender.
  unfold whitelist_check in H. by rewrite H.
Qed.

Lemma is_suspicious_sender_pattern s pattern :
  ~ whitelisted (address_part s) ->
  In pattern SUSPICIOUS_SENDERS ->
  re_match pattern (lower (address_part s)) = true ->
  is_suspicious_sender s = true.
Proof.
  intros Hw Hin Hm. unfold is_suspicious_sender.
  destruct (existsb _ WHITELIST_DOMAINS) eqn:E.
  - exfalso. apply Hw, whitelist_check_iff. exact E.
  - apply existsb_exists. eauto.
Qed.

End FilterFacts.

(** ** The score as a clamped sum of contributions *)

Section ScoreFacts.
Import Text Re EmailFilter.

Lemma fold_add_fst (p : string -> bool) (r : string -> string) pts l acc :
  fst (fold_left (fun acc x => if p x then add pts (r x) acc else acc) l acc)
  == fst acc + count (List.filter p l) * pts.
Proof.
  revert acc. induction l as [|x l IH]; intros acc; simpl.
  - unfold count. simpl. ring.
  - destruct (p x); rewrite IH; [|reflexivity].
    unfold count, add. simpl length. rewrite Nat2Z.inj_succ, <- Z.add_1_r.
    rewrite inject_Z_plus. simpl fst. ring.
Qed.

Lemma fold_add_snd (p : string -> bool) (r : string -> string) pts l acc :
  snd (fold_left (fun acc x => if p x then add pts (r x) acc else acc) l acc)
  = snd acc ++ (r <$> List.filter p l).
Proof.
  revert acc. induction l as [|x l IH]; intros acc; simpl.
  - by rewrite app_nil_r.
  - destruct (p x); rewrite IH; [|done].
    unfold add. simpl. by rewrite <- app_assoc.
Qed.

Lemma count_nonneg l : (0 <= count l)%Q.
Proof.
  unfold count. change 0%Q with (inject_Z 0). rewrite <- Zle_Qle. lia.
Qed.

Lemma keyword_points_nonneg e : (0 <= keyword_points e)%Q.
Proof.
  unfold keyword_points. destruct (keyword_hits e) as [|k l]; [lra|].
  apply Q.min_glb; [lra|].
  pose proof (count_nonneg (k :: l)). nra.
Qed.

Lemma caps_points_nonneg e : (0 <= caps_points e)%Q.
Proof. unfold caps_points. destruct (caps_fires _); lra. Qed.

(** Lines 180-184: the division is guarded by the test on [subject]. *)
Lemma caps_step subject (acc : tally) :
  match subject with
  | EmptyString => Some acc
  | String _ _ =>
      caps_ratio ← truediv (count_upper subject) (String.length subject);
      Some (if Qle_bool caps_ratio (5 # 10) then acc
            else add (2 # 10) "Excessive capitalization" acc)
  end
  = Some (if caps_fires subject
          then add (2 # 10) "Excessive capitalization" acc else acc).
Proof.
  destruct subject as [|a s]; [done|].
  unfold caps_fires, truediv. cbn [String.length mbind option_bind].
  by destruct (Qle_bool _ _).
Qed.

(** The function returns, and what it returns. *)
Lemma calculate_spam_score_spec e :
  exists score,
    calculate_spam_score e = Some (score, reasons_of e)
    /\ (score == Qmin 1 (total e))%Q.
Proof.
  unfold calculate_spam_score.
  change (lower (get e "subject" "")) with (subject_of e).
  change (lower (get e "body" "")) with (body_of e).
  change (lower (get e "from" "")) with (from_of e).
  unfold reasons_of, total, no_reply_points, sender_points, keyword_points,
    caps_points, attachment_points, shortener_points, hits, keyword_hits.
  set (found := List.filter _ SPAM_KEYWORDS).
  destruct (is_no_reply_address (from_of e)), (is_suspicious_sender (from_of e)),
    found as [|k l].
  all: cbv zeta.
  all: cbn [Nat.ltb Nat.leb length].
  all: rewrite caps_step.
  all: cbn [mbind option_bind].
  all: eexists; split;
    [ apply (f_equal Some), pair_equal_spec; split; [reflexivity|];
      rewrite !fold_add_snd; by destruct (caps_fires _)
    | apply Q.min_compat; [reflexivity|]; rewrite !fold_add_fst;
      destruct (caps_fires _); cbn [fst add]; unfold count;
      cbn [length]; ring ].
Qed.

Lemma total_nonneg e : (0 <= total e)%Q.
Proof.
  unfold total, no_reply_points, sender_points, attachment_points,
    shortener_points.
  pose proof (keyword_points_nonneg e). pose proof (caps_points_nonneg e).
  pose proof (count_nonneg (hits suspicious_extensions (body_of e))).
  pose proof (count_nonneg (hits url_shorteners (body_of e))).
  destruct (is_no_reply_address _), (is_suspicious_sender _); nra.
Qed.

End ScoreFacts.

(** ** Properties of the risk scorer *)

Section FilterClaims.
Import Text Re EmailFilter.

Lemma is_suspicious_sender_lower s :
  is_suspicious_sender (lower s) = is_suspicious_sender s.
Proof.
  unfold is_suspicious_sender. by rewrite address_part_lower, lower_idem.
Qed.

(** No upper-case letter is left in a lowered text, so the test of lines
    181-182 fails on it (for the letters modelled here, the ASCII ones). *)
Lemma caps_fires_lower s : caps_fires (lower s) = false.
Proof.
  unfold caps_fires. destruct (lower s) as [|a s'] eqn:E; [done|].
  rewrite <- E, count_upper_lower.
  apply negb_false_iff, Qle_bool_iff.
  unfold Qdiv. rewrite Qmult_0_l. lra.
Qed.

Lemma caps_points_zero e : caps_points e = 0%Q.
Proof. unfold caps_points, subject_of. by rewrite caps_fires_lower. Qed.

Lemma sender_reason_iff e :
  In "Suspicious sender pattern" (reasons_of e)
  <-> is_suspicious_sender (from_of e) = true.
Proof.
  unfold reasons_of. rewrite !in_app_iff. split.
  - intros [H|[H|[H|[H|[H|H]]]]].
    + destruct (is_no_reply_address _); simpl in H; [|done].
      destruct H as [H|[]]. discriminate.
    + by destruct (is_suspicious_sender _).
    + destruct (keyword_hits e); simpl in H; [done|].
      destruct H as [H|[]]. vm_compute in H. discriminate.
    + destruct (caps_fires _); simpl in H; [|done].
      destruct H as [H|[]]. discriminate.
    + apply in_map_iff in H as (x & H & _). vm_compute in H. discriminate.
    + apply in_map_iff in H as (x & H & _). vm_compute in H. discriminate.
  - intros ->. right. left. by left.
Qed.

(** C1: for every e-mail record [calculate_spam_score] returns, and the
    score it returns is the sum of six contributions, none of them
    negative, clamped by [min(1.0, .)]; so it lies between 0 and 1. *)
Theorem spam_score_bounds (e : gmap string string) :
  exists score reasons,
    calculate_spam_score e = Some (score, reasons)
    /\ (score == Qmin 1 (total e))%Q
    /\ (0 <= no_reply_points e)%Q /\ (0 <= sender_points e)%Q
    /\ (0 <= keyword_points e)%Q /\ (0 <= caps_points e)%Q
    /\ (0 <= attachment_points e)%Q /\ (0 <= shortener_points e)%Q
    /\ (0 <= score)%Q /\ (score <= 1)%Q.
Proof.
  destruct (calculate_spam_score_spec e) as (score & Hs & Hq).
  exists score, (reasons_of e). split; [done|]. split; [done|].
  pose proof (total_nonneg e) as Ht.
  pose proof (count_nonneg (hits suspicious_extensions (body_of e))).
  pose proof (count_nonneg (hits url_shorteners (body_of e))).
  repeat split.
  - unfold no_reply_points. destruct (is_no_reply_address _); lra.
  - unfold sender_points. destruct (is_suspicious_sender _); lra.
  - apply keyword_points_nonneg.
  - apply caps_points_nonneg.
  - unfold attachment_points. nra.
  - unfold shortener_points. nra.
  - rewrite Hq. apply Q.min_glb; [lra|done].
  - rewrite Hq. apply Q.le_min_l.
Qed.

Lemma payment_rule_hit keywords subject from_lower keyword token :
  In keyword keywords -> str_in keyword subject = true ->
  In token payment_domains -> str_in token from_lower = true ->
  exists domain, payment_rule keywords subject from_lower = Some domain.
Proof.
  intros Hk Hs Ht Hf.
  assert (exists d, List.find (fun domain => str_in domain from_lower)
                      payment_domains = Some d) as [d Hd].
  { destruct (List.find _ payment_domains) as [d|] eqn:E; [by exists d|].
    pose proof (find_none _ _ E token Ht) as Hn. simpl in Hn. congruence. }
  induction keywords as [|k ks IH]; [done|]. cbn [payment_rule].
  destruct (str_in k subject) eqn:Ek.
  - rewrite Hd. by exists d.
  - destruct Hk as [->|Hk]; [congruence|]. by apply IH.
Qed.

(** C2: when the subject contains a payment keyword and the sender a
    payment-processor token (both compared in lower case, as the code
    does, so that text containing them literally is covered),
    [should_skip_email] returns skip = true, whatever the score and
    whatever the threshold. *)
Theorem payment_processor_mail_is_skipped
    (e : gmap string string) (threshold : Q) (keyword token : string) :
  In keyword payment_keywords -> In token payment_domains ->
  str_in keyword (lower (get e "subject" "")) = true ->
  str_in token (lower (get e "from" "")) = true ->
  exists reason, should_skip_email e threshold = Some (true, reason).
Proof.
  intros Hk Ht Hs Hf. unfold should_skip_email.
  destruct (is_no_reply_address _); [by eexists|].
  destruct (calculate_spam_score_spec e) as (score & -> & _).
  cbn [mbind option_bind].
  destruct (Qle_bool threshold score); [by eexists|].
  destruct (payment_rule_hit payment_keywords _ _ keyword token Hk Hs Ht Hf)
    as [d ->].
  by eexists.
Qed.

Lemma payment_processor_mail_is_skipped_witness :
  let e : gmap string string :=
    {[ "subject" := "Your Receipt"; "from" := "Billing <billing@stripe.com>" ]} in
  fst <$> calculate_spam_score e = Some 0%Q
  /\ exists reason, should_skip_email e 2 = Some (true, reason).
Proof.
  split; [vm_compute; reflexivity|].
  apply (payment_processor_mail_is_skipped _ 2 "receipt" "stripe");
    [simpl; tauto | simpl; tauto | vm_compute; reflexivity
    | vm_compute; reflexivity].
Defined.

Lemma sum_skip_zero (a b c d f : Q) :
  (a + 0 + b + c + d + f == a + b + c + d + f)%Q.
Proof. ring. Qed.

(** C3: a sender whose address has a whitelisted domain is never
    suspicious, because the whitelist is consulted before the patterns:
    the score is the clamped sum of the other five contributions and the
    reason is not recorded, even for an address such as user@paypal.com
    that matches a pattern.  A sender that is not whitelisted and matches
    a pattern, such as user@paypal.security-alert.com, is suspicious and
    the 0.5 is part of the sum. *)
Theorem whitelist_precedes_patterns (e : gmap string string) :
  whitelisted (address_part (get e "from" "")) ->
  (is_suspicious_sender (get e "from" "") = false
   /\ exists score,
       calculate_spam_score e = Some (score, reasons_of e)
       /\ ~ In "Suspicious sender pattern" (reasons_of e)
       /\ (score == Qmin 1 (no_reply_points e + keyword_points e
                            + caps_points e + attachment_points e
                            + shortener_points e))%Q)
  /\ (forall (e' : gmap string string) (pattern : string),
        ~ whitelisted (address_part (get e' "from" "")) ->
        In pattern SUSPICIOUS_SENDERS ->
        re_match pattern (lower (address_part (get e' "from" ""))) = true ->
        is_suspicious_sender (get e' "from" "") = true
        /\ exists score,
            calculate_spam_score e' = Some (score, reasons_of e')
            /\ In "Suspicious sender pattern" (reasons_of e')
            /\ (score == Qmin 1 (no_reply_points e' + (5 # 10)
                                 + keyword_points e' + caps_points e'
                                 + attachment_points e'
                                 + shortener_points e'))%Q)
  /\ (re_match ".*@.*paypal\..*" "user@paypal.com" = true
      /\ is_suspicious_sender "user@paypal.com" = false
      /\ is_suspicious_sender "user@paypal.security-alert.com" = true
      /\ calculate_spam_score {[ "from" := "user@paypal.com" ]}
         = Some (0%Q, [])
      /\ calculate_spam_score {[ "from" := "user@paypal.security-alert.com" ]}
         = Some ((5 # 10)%Q, ["Suspicious sender pattern"])).
Proof.
  intros Hw. split; [|split].
  - pose proof (is_suspicious_sender_whitelisted _ Hw) as Hs.
    split; [done|].
    destruct (calculate_spam_score_spec e) as (score & Hc & Hq).
    exists score. split; [done|].
    assert (is_suspicious_sender (from_of e) = false) as Hf
      by (unfold from_of; by rewrite is_suspicious_sender_lower).
    split.
    + rewrite sender_reason_iff. congruence.
    + rewrite Hq. apply Q.min_compat; [reflexivity|].
      unfold total, sender_points. rewrite Hf. apply sum_skip_zero.
  - intros e' pattern Hn Hp Hm.
    pose proof (is_suspicious_sender_pattern _ _ Hn Hp Hm) as Hs.
    split; [done|].
    destruct (calculate_spam_score_spec e') as (score & Hc & Hq).
    exists score. split; [done|].
    assert (is_suspicious_sender (from_of e') = true) as Hf
      by (unfold from_of; by rewrite is_suspicious_sender_lower).
    split.
    + by rewrite sender_reason_iff.
    + rewrite Hq. apply Q.min_compat; [reflexivity|].
      unfold total, sender_points. rewrite Hf. reflexivity.
  - repeat apply conj; vm_compute; reflexivity.
Qed.

Lemma whitelist_precedes_patterns_witness :
  let e : gmap string string :=
    {[ "subject" := "About my order"; "from" := "Pat <User@PayPal.com>" ]} in
  whitelisted (address_part (get e "from" ""))
  /\ is_suspicious_sender (get e "from" "") = false.
Proof.
  intros e.
  assert (whitelisted (address_part (get e "from" ""))) as Hw.
  { exists "User", "PayPal.com". split; [vm_compute; reflexivity|].
    vm_compute. tauto. }
  split; [exact Hw|].
  exact (proj1 (proj1 (whitelist_precedes_patterns e Hw))).
Defined.

(** C8 fails on the code: the subject is put in lower case (line 152)
    before its upper-case letters are counted (line 181), so a subject
    in capitals contributes nothing. *)
Theorem capitals_in_subject_not_scored :
  let e : gmap string string := {[ "subject" := "URGENT NEWS" ]} in
  mostly_uppercase (get e "subject" "") = true
  /\ caps_fires (get e "subject" "") = true
  /\ caps_points e = 0%Q
  /\ calculate_spam_score e = Some (0%Q, []).
Proof. cbv zeta. repeat apply conj; vm_compute; reflexivity. Qed.

Lemma no_reply_branch_only e threshold :
  is_no_reply_address (get e "from" "") = false ->
  should_skip_email e threshold <> Some (true, No_reply_address).
Proof.
  intros H. unfold should_skip_email. rewrite H.
  destruct (calculate_spam_score_spec e) as (score & -> & _).
  cbn [mbind option_bind].
  destruct (Qle_bool threshold score); [done|].
  by destruct (payment_rule _ _ _).
Qed.

(** C10, as the code has it: [is_no_reply_address] reads the from field
    from its first character and never looks inside the angle brackets,
    so on a display name followed by a bracketed address it answers as on
    the display name alone.  When the display name has no at-sign the
    answer is false and the no-reply rule of [should_skip_email] does not
    fire, whatever the bracketed address; [is_suspicious_sender] on the
    same field answers as on the bracketed address. *)
Theorem no_reply_test_reads_display_name
    (e : gmap string string) (threshold : Q) (name addr : string) :
  get e "from" "" = name +:+ "<" +:+ addr +:+ ">" ->
  is_no_reply_address (get e "from" "") = is_no_reply_address name
  /\ (has_char "@" name = false ->
      is_no_reply_address (get e "from" "") = false
      /\ should_skip_email e threshold <> Some (true, No_reply_address))
  /\ (has_char "<" name = false -> addr <> "" -> has_char ">" addr = false ->
      is_suspicious_sender (get e "from" "") = is_suspicious_sender addr).
Proof.
  intros Hf.
  assert (is_no_reply_address (get e "from" "") = is_no_reply_address name)
    as Hn.
  { rewrite Hf.
    change (name +:+ "<" +:+ addr +:+ ">")
      with (name +:+ String "<" (addr +:+ ">")).
    apply is_no_reply_address_before_lt. }
  split; [done|]. split.
  - intros Ha. rewrite Hn.
    pose proof (is_no_reply_address_no_at _ Ha) as Hna.
    split; [done|]. apply no_reply_branch_only. congruence.
  - intros Hlt Hne Hgt. rewrite Hf. unfold is_suspicious_sender.
    by rewrite address_part_bracketed, (address_part_no_gt addr).
Qed.

Lemma no_reply_test_reads_display_name_witness :
  let e : gmap string string :=
    {[ "from" := "Service <noreply@example.com>" ]} in
  is_no_reply_address "noreply@example.com" = true
  /\ is_no_reply_address (get e "from" "") = false
  /\ should_skip_email e (5 # 10) = Some (false, No_reason).
Proof.
  intros e. split; [vm_compute; reflexivity|].
  split; [|vm_compute; reflexivity].
  assert (get e "from" "" = "Service " +:+ "<" +:+ "noreply@example.com" +:+ ">")
    as Hf by (vm_compute; reflexivity).
  assert (has_char "@" "Service " = false) as Ha by (vm_compute; reflexivity).
  exact (proj1 (proj1 (proj2
    (no_reply_test_reads_display_name e (5 # 10) _ _ Hf)) Ha)).
Defined.

(** C10 as stated fails when the display name itself begins like a
    no-reply address. *)
Lemma no_reply_display_name_counterexample :
  let from := "noreply@example.com" +:+ " <" +:+ "noreply@example.com" +:+ ">" in
  is_no_reply_address from = true
  /\ should_skip_email {[ "from" := from ]} (5 # 10)
     = Some (true, No_reply_address).
Proof. cbv zeta. split; vm_compute; reflexivity. Qed.

End FilterClaims.

(** ** Properties of the classifier *)

Section ProcessorClaims.
Import Text EmailProcessor.

Lemma find_first {A} (p : A -> bool) (l : list A) (x : A) :
  List.find p l = Some x ->
  exists before after,
    l = before ++ x :: after /\ p x = true
    /\ forall y, In y before -> p y = false.
Proof.
  induction l as [|a l IH]; [done|]. simpl.
  destruct (p a) eqn:Ea.
  - intros [= ->]. exists [], l. by repeat split.
  - intros (before & after & -> & Hx & Hb)%IH.
    exists (a :: before), after. repeat split; [done|].
    intros y [<-|Hy]; [done|by apply Hb].
Qed.

Lemma find_pointwise {A} (p q : A -> bool) (l : list A) :
  (forall x, p x = q x) -> List.find p l = List.find q l.
Proof.
  intros H. induction l as [|a l IH]; [done|]. simpl. by rewrite H, IH.
Qed.

Lemma has_match_matches text category :
  has_match text category
  = match matches_of text category with [] => false | _ :: _ => true end.
Proof.
  unfold has_match, matches_of.
  induction (keywords_of category) as [|k ks IH]; [done|]. simpl.
  by destruct (str_in k text).
Qed.

Lemma collect_matches_map text :
  fst (collect_matches text) = matches_map (matches_of text).
Proof.
  unfold collect_matches, categories, matches_map, matches_of.
  cbn [fold_left fst].
  repeat match goal with
         | |- context [keywords_of ?c] =>
             let kws := eval vm_compute in (keywords_of c) in
             change (keywords_of c) with kws
         end.
  reflexivity.
Qed.

(** Lines 491-497: trying the eight names of [priority_order] against the
    dictionary is trying the seven categories in order. *)
Lemma priority_loop (h : string -> list string) :
  List.find
    (fun category =>
       match matches_map h !! category with
       | Some (_ :: _) => true
       | _ => false
       end)
    priority_order
  = List.find (fun c => match h c with [] => false | _ :: _ => true end)
      category_order.
Proof.
  unfold priority_order, category_order, matches_map. cbn [List.find].
  repeat (rewrite lookup_insert_eq || rewrite lookup_insert_ne by done).
  rewrite lookup_empty.
  destruct (h "urgent_request"), (h "complaint"), (h "billing_question"),
    (h "product_support"), (h "feature_request"), (h "spam"),
    (h "general_feedback"); reflexivity.
Qed.

Lemma _categorize_email_find e :
  _categorize_email e
  = match List.find (has_match (text_of e)) category_order with
    | Some category => (category, snd (collect_matches (text_of e)))
    | None => ("customer_inquiry", [])
    end.
Proof.
  unfold _categorize_email.
  change (lower (get e "subject" "") +:+ " " +:+ lower (get e "body" ""))
    with (text_of e).
  destruct (collect_matches (text_of e)) as [cm mk] eqn:E.
  assert (cm = matches_map (matches_of (text_of e))) as ->
    by (rewrite <- collect_matches_map; by rewrite E).
  rewrite priority_loop. cbn [snd].
  by rewrite (find_pointwise _ (has_match (text_of e)))
    by (intros c; by rewrite has_match_matches).
Qed.

(** C4: the category is the first one, in the order urgent_request,
    complaint, billing_question, product_support, feature_request, spam,
    general_feedback, whose table has a keyword in the lowered subject,
    a space and the lowered body; when no table has one the result is
    customer_inquiry with no keywords.  A text with an urgent_request
    keyword and a complaint keyword is urgent_request. *)
Theorem category_is_first_match (e : gmap string string) :
  ((exists before after,
      category_order = before ++ fst (_categorize_email e) :: after
      /\ has_match (text_of e) (fst (_categorize_email e)) = true
      /\ forall c, In c before -> has_match (text_of e) c = false)
   \/ ((forall c, In c category_order -> has_match (text_of e) c = false)
       /\ _categorize_email e = ("customer_inquiry", [])))
  /\ (forall urgent complaint,
        In urgent (keywords_of "urgent_request") ->
        In complaint (keywords_of "complaint") ->
        str_in urgent (text_of e) = true ->
        str_in complaint (text_of e) = true ->
        fst (_categorize_email e) = "urgent_request").
Proof.
  rewrite _categorize_email_find. split.
  - destruct (List.find _ category_order) as [c|] eqn:E.
    + left. by apply find_first in E.
    + right. split; [|done]. intros c Hc. apply (find_none _ _ E c Hc).
  - intros urgent complaint Hu _ Hs _.
    assert (has_match (text_of e) "urgent_request" = true) as Hm
      by (apply existsb_exists; eauto).
    unfold category_order. cbn [List.find]. by rewrite Hm.
Qed.

Lemma category_is_first_match_witness :
  let e : gmap string string :=
    {[ "subject" := "URGENT complaint"; "body" := "The login page is broken" ]} in
  str_in "urgent" (text_of e) = true
  /\ str_in "complaint" (text_of e) = true
  /\ fst (_categorize_email e) = "urgent_request".
Proof.
  intros e.
  assert (str_in "urgent" (text_of e) = true) as Hu by (vm_compute; reflexivity).
  assert (str_in "complaint" (text_of e) = true) as Hc
    by (vm_compute; reflexivity).
  split; [exact Hu|]. split; [exact Hc|].
  apply (proj2 (category_is_first_match e) "urgent" "complaint");
    [vm_compute; tauto | vm_compute; tauto | exact Hu | exact Hc].
Defined.

Lemma get_absent_or_empty (e : gmap string string) (field key : string) :
  get (delete field e) key "" = get (<[field := ""]> e) key "".
Proof.
  unfold get. destruct (decide (field = key)) as [->|Hne].
  - by rewrite lookup_delete_eq, lookup_insert_eq.
  - by rewrite lookup_delete_ne, lookup_insert_ne.
Qed.

Lemma _categorize_email_in_categories e :
  In (fst (_categorize_email e)) EMAIL_CATEGORIES.
Proof.
  rewrite _categorize_email_find.
  destruct (List.find _ category_order) as [c|] eqn:E.
  - apply find_some in E as [Hc _]. simpl in *. tauto.
  - simpl. tauto.
Qed.

Lemma _analyze_sentiment_values e :
  In (_analyze_sentiment e) ["positive"; "negative"; "neutral"].
Proof.
  unfold _analyze_sentiment. cbv zeta.
  set (p := length (List.filter _ positive_words)).
  set (n := length (List.filter _ negative_words)). clearbody p n.
  destruct (n <? p)%nat; [by left|].
  destruct (p <? n)%nat; [right; by left|right; right; by left].
Qed.

Lemma _determine_priority_values e category sentiment :
  In (_determine_priority e category sentiment) ["high"; "medium"; "low"].
Proof.
  unfold _determine_priority.
  destruct (mem category _); [by left|].
  destruct (_ || _); [right; by left|right; right; by left].
Qed.

End ProcessorClaims.

(** ** Scoring and classification never raise *)

Section TotalityClaims.
Import Text EmailFilter EmailProcessor.

Lemma should_skip_email_returns e threshold :
  is_Some (should_skip_email e threshold).
Proof.
  unfold should_skip_email.
  destruct (is_no_reply_address _); [done|].
  destruct (calculate_spam_score_spec e) as (score & -> & _).
  cbn [mbind option_bind].
  destruct (Qle_bool threshold score); [done|].
  by destruct (payment_rule _ _ _).
Qed.

Lemma calculate_spam_score_absent_or_empty e field :
  calculate_spam_score (delete field e)
  = calculate_spam_score (<[field := ""]> e).
Proof. unfold calculate_spam_score. by rewrite !get_absent_or_empty. Qed.

Lemma should_skip_email_absent_or_empty e field threshold :
  should_skip_email (delete field e) threshold
  = should_skip_email (<[field := ""]> e) threshold.
Proof.
  unfold should_skip_email.
  by rewrite !get_absent_or_empty, calculate_spam_score_absent_or_empty.
Qed.

Lemma _categorize_email_absent_or_empty e field :
  _categorize_email (delete field e) = _categorize_email (<[field := ""]> e).
Proof. unfold _categorize_email. by rewrite !get_absent_or_empty. Qed.

Lemma _analyze_sentiment_absent_or_empty e field :
  _analyze_sentiment (delete field e)
  = _analyze_sentiment (<[field := ""]> e).
Proof. unfold _analyze_sentiment. by rewrite !get_absent_or_empty. Qed.

(** C9: on every record whose fields are strings, present or not, the
    five functions return (the division of line 181 is never by zero)
    and their results are of the expected kind; a field that is absent
    is read as the empty string; and without subject and body the
    classification is customer_inquiry, neutral, low, the text
    contributes nothing to the score, and with no sender either the score
    is 0. *)
Theorem scoring_and_classification_total
    (e : gmap string string) (threshold : Q) :
  (is_Some (calculate_spam_score e)
   /\ is_Some (should_skip_email e threshold)
   /\ In (fst (_categorize_email e)) EMAIL_CATEGORIES
   /\ In (_analyze_sentiment e) ["positive"; "negative"; "neutral"]
   /\ forall category sentiment,
        In (_determine_priority e category sentiment)
          ["high"; "medium"; "low"])
  /\ (forall field,
        calculate_spam_score (delete field e)
        = calculate_spam_score (<[field := ""]> e)
        /\ should_skip_email (delete field e) threshold
           = should_skip_email (<[field := ""]> e) threshold
        /\ _categorize_email (delete field e)
           = _categorize_email (<[field := ""]> e)
        /\ _analyze_sentiment (delete field e)
           = _analyze_sentiment (<[field := ""]> e))
  /\ (get e "subject" "" = "" -> get e "body" "" = "" ->
      _categorize_email e = ("customer_inquiry", [])
      /\ _analyze_sentiment e = "neutral"
      /\ _determine_priority e "customer_inquiry" "neutral" = "low"
      /\ (keyword_points e == 0)%Q /\ (caps_points e == 0)%Q
      /\ (attachment_points e == 0)%Q /\ (shortener_points e == 0)%Q
      /\ (get e "from" "" = "" ->
          calculate_spam_score e = Some (0%Q, [])
          /\ should_skip_email e (5 # 10)
             = Some (false, No_reason))).
Proof.
  split; [|split].
  - split.
    { destruct (calculate_spam_score_spec e) as (score & -> & _). done. }
    split; [apply should_skip_email_returns|].
    split; [apply _categorize_email_in_categories|].
    split; [apply _analyze_sentiment_values|].
    intros. apply _determine_priority_values.
  - intros field.
    split; [apply calculate_spam_score_absent_or_empty|].
    split; [apply should_skip_email_absent_or_empty|].
    split; [apply _categorize_email_absent_or_empty|].
    apply _analyze_sentiment_absent_or_empty.
  - intros Hs Hb.
    split; [unfold _categorize_email; rewrite Hs, Hb; by vm_compute|].
    split; [unfold _analyze_sentiment; rewrite Hs, Hb; by vm_compute|].
    split; [by vm_compute|].
    split; [unfold keyword_points, keyword_hits, subject_of, body_of;
            rewrite Hs, Hb; by vm_compute|].
    split; [by rewrite caps_points_zero|].
    split; [unfold attachment_points, body_of; rewrite Hb; by vm_compute|].
    split; [unfold shortener_points, body_of; rewrite Hb; by vm_compute|].
    intros Hf.
    assert (calculate_spam_score e = Some (0%Q, [])) as Hc
      by (unfold calculate_spam_score; rewrite Hs, Hb, Hf; by vm_compute).
    split; [done|].
    unfold should_skip_email. rewrite Hc, Hs, Hf. by vm_compute.
Qed.

Lemma scoring_and_classification_total_witness :
  let e : gmap string string := {[ "id" := "17"; "subject" := "" ]} in
  get e "subject" "" = "" /\ get e "body" "" = "" /\ get e "from" "" = ""
  /\ calculate_spam_score e = Some (0%Q, [])
  /\ _categorize_email e = ("customer_inquiry", [])
  /\ _analyze_sentiment e = "neutral".
Proof.
  intros e.
  assert (get e "subject" "" = "") as Hs by (vm_compute; reflexivity).
  assert (get e "body" "" = "") as Hb by (vm_compute; reflexivity).
  assert (get e "from" "" = "") as Hf by (vm_compute; reflexivity).
  destruct (proj2 (proj2 (scoring_and_classification_total e (5 # 10))) Hs Hb)
    as (Hc & Hn & _ & _ & _ & _ & _ & Hz).
  destruct (Hz Hf) as [Hscore _].
  repeat apply conj; assumption.
Defined.

End TotalityClaims.

(** ** Properties of the ledger *)

Section TrackerClaims.
Import Text EmailTracker.

Lemma fold_delete_lookup (ks : list string) (m : gmap string LedgerRecord) i :
  fold_left (fun m k => delete k m) ks m !! i
  = if decide (i ∈ ks) then None else m !! i.
Proof.
  revert m. induction ks as [|k ks IH]; intros m; simpl.
  - destruct (decide (i ∈ [])) as [Hin|_]; [|done].
    by apply elem_of_nil in Hin.
  - rewrite IH.
    destruct (decide (i ∈ ks)) as [Hin|Hnin].
    + rewrite decide_True; [done|]. by right.
    + destruct (decide (i = k)) as [->|Hne].
      * rewrite lookup_delete_eq, decide_True; [done|]. by left.
      * rewrite lookup_delete_ne, decide_False; [done| |done].
        intros [?|?]%elem_of_cons; done.
Qed.

Lemma get_emails_cleanup self now :
  get_emails (_cleanup_old_entries self now)
  = fold_left (fun m k => delete k m)
      (List.filter
         (fun '(email_id, data) => (processed_at data <? cutoff_date self now)%Z)
         (map_to_list (get_emails self))).*1
      (get_emails self).
Proof.
  unfold _cleanup_old_entries, get_emails, cutoff_date. cbv zeta.
  destruct self as [hf mhd [[m|] lc]]; cbn [processed_emails emails
    max_history_days last_cleanup EmailTracker.emails default fmap option_fmap
    option_map].
  - by destruct (List.filter _ _).*1.
  - rewrite map_to_list_empty. reflexivity.
Qed.

(** What a cleanup leaves under each id. *)
Lemma cleanup_lookup self now i :
  get_emails (_cleanup_old_entries self now) !! i
  = match get_emails self !! i with
    | Some r => if (processed_at r <? cutoff_date self now)%Z
                then None else Some r
    | None => None
    end.
Proof.
  rewrite get_emails_cleanup, fold_delete_lookup.
  set (m := get_emails self).
  destruct (m !! i) as [r|] eqn:E.
  - destruct (processed_at r <? cutoff_date self now)%Z eqn:Er.
    + rewrite decide_True; [done|].
      apply list_elem_of_fmap. exists (i, r). split; [done|].
      apply list_elem_of_In, filter_In. split; [|done].
      by apply list_elem_of_In, elem_of_map_to_list.
    + rewrite decide_False; [done|].
      intros ([j r'] & Hi & Hin)%list_elem_of_fmap. simpl in Hi. subst j.
      apply list_elem_of_In, filter_In in Hin as [Hin Hlt].
      apply list_elem_of_In, elem_of_map_to_list in Hin.
      assert (r' = r) as -> by congruence. congruence.
  - by case_decide.
Qed.

Lemma max_history_days_cleanup self now :
  max_history_days (_cleanup_old_entries self now) = max_history_days self.
Proof. reflexivity. Qed.

Lemma max_history_days_mark self now nc i d s :
  max_history_days (mark_as_processed self now nc i d s)
  = max_history_days self.
Proof. unfold mark_as_processed. cbv zeta. by destruct (_ <=? _)%Z. Qed.

(** What a call of [mark_as_processed] leaves under each id. *)
Lemma mark_lookup self now nc i d s j :
  get_emails (mark_as_processed self now nc i d s) !! j
  = match <[i := written_record now d s]> (get_emails self) !! j with
    | Some r =>
        if cleanup_due self now && (processed_at r <? cutoff_date self nc)%Z
        then None else Some r
    | None => None
    end.
Proof.
  unfold mark_as_processed, cleanup_due. cbv zeta.
  cbn [processed_emails last_cleanup].
  destruct (1 <=? _)%Z.
  - rewrite cleanup_lookup. reflexivity.
  - cbn [andb]. unfold get_emails at 1. cbn [processed_emails emails default].
    by destruct (_ !! j).
Qed.

Lemma filter_length_perm {A} (f : A -> bool) (l l' : list A) :
  l ≡ₚ l' -> length (List.filter f l) = length (List.filter f l').
Proof.
  induction 1 as [|x l l' _ IH|x y l|l l' l'' _ IH1 _ IH2]; simpl.
  - done.
  - destruct (f x); simpl; by rewrite IH.
  - by destruct (f x), (f y).
  - by rewrite IH1.
Qed.

Lemma filter_all_false {A} (f : A -> bool) (l : list A) :
  (forall x, In x l -> f x = false) -> List.filter f l = [].
Proof.
  induction l as [|a l IH]; intros H; simpl; [done|].
  rewrite (H a) by (by left). apply IH. intros x Hx. apply H. by right.
Qed.

Lemma filter_snd_length {A B} (f : B -> bool) (l : list (A * B)) :
  length (List.filter f l.*2)
  = length (List.filter (fun entry => f (snd entry)) l).
Proof.
  induction l as [|[a b] l IH]; [done|].
  change (((a, b) :: l).*2) with (b :: l.*2).
  cbn [List.filter snd]. destruct (f b); cbn [length]; by rewrite IH.
Qed.

(** A dictionary holds at most one entry under an id. *)
Lemma entries_for_length self email_id :
  length (entries_for email_id self)
  = match get_emails self !! email_id with Some _ => 1%nat | None => 0%nat end.
Proof.
  unfold entries_for. set (m := get_emails self).
  assert (forall m' : gmap string LedgerRecord,
            m' !! email_id = None ->
            List.filter (fun entry : string * LedgerRecord =>
                           String.eqb (fst entry) email_id)
              (map_to_list m') = []) as Hnone.
  { intros m' Hm. apply filter_all_false. intros [k r] Hin. simpl.
    apply String.eqb_neq. intros ->.
    apply list_elem_of_In, elem_of_map_to_list in Hin. congruence. }
  destruct (m !! email_id) as [r|] eqn:E.
  - rewrite <- (filter_length_perm _ _ _ (map_to_list_delete m email_id r E)).
    simpl. rewrite String.eqb_refl. simpl.
    by rewrite Hnone by apply lookup_delete_eq.
  - by rewrite Hnone.
Qed.

Lemma count_sender_emails_counted self now sender hours :
  count_sender_emails self now sender hours
  = length (List.filter (fun entry => counted now hours sender (snd entry))
              (map_to_list (get_emails self))).
Proof. unfold count_sender_emails. cbv zeta. apply filter_snd_length. Qed.

(** Distinct ids with a record that counts are all counted. *)
Lemma counted_lower_bound (q : LedgerRecord -> bool) (ids : list string)
    (m : gmap string LedgerRecord) :
  NoDup ids ->
  (forall i, In i ids -> exists r, m !! i = Some r /\ q r = true) ->
  (length ids <= length (List.filter (fun entry => q (snd entry))
                           (map_to_list m)))%nat.
Proof.
  intros Hnd. revert m.
  induction Hnd as [|i ids Hi Hnd IH]; intros m H; simpl; [lia|].
  destruct (H i) as (r & Hr & Hq); [by left|].
  rewrite <- (filter_length_perm _ _ _ (map_to_list_delete m i r Hr)).
  simpl. rewrite Hq. simpl. apply le_n_S, IH.
  intros j Hj. destruct (H j) as (r' & Hr' & Hq'); [by right|].
  exists r'. split; [|done]. rewrite lookup_delete_ne; [done|].
  intros ->. by apply Hi, list_elem_of_In.
Qed.

(** C7: a cleanup at instant [now] removes every record processed
    before the cutoff, [now] minus [max_history_days] days, keeps every
    record processed after it as it was, and adds none. *)
Theorem cleanup_removes_old_keeps_new
    (self : EmailTracker.t) (now : Z) (email_id : string) (r : LedgerRecord) :
  get_emails self !! email_id = Some r ->
  ((processed_at r < now - max_history_days self * day)%Z ->
     get_emails (_cleanup_old_entries self now) !! email_id = None
     /\ is_processed (_cleanup_old_entries self now) email_id = false)
  /\ ((now - max_history_days self * day < processed_at r)%Z ->
        get_emails (_cleanup_old_entries self now) !! email_id = Some r)
  /\ (forall other,
        get_emails self !! other = None ->
        get_emails (_cleanup_old_entries self now) !! other = None).
Proof.
  intros Hr. split; [|split].
  - intros Hlt.
    assert (get_emails (_cleanup_old_entries self now) !! email_id = None)
      as Hn.
    { rewrite cleanup_lookup, Hr. unfold cutoff_date.
      by rewrite (proj2 (Z.ltb_lt _ _) Hlt). }
    split; [done|]. unfold is_processed. rewrite Hn.
    apply bool_decide_eq_false. by intros [? ?].
  - intros Hlt. rewrite cleanup_lookup, Hr. unfold cutoff_date.
    rewrite (proj2 (Z.ltb_ge _ _)); [done|lia].
  - intros other Ho. by rewrite cleanup_lookup, Ho.
Qed.

(** A ledger with a record of 1 January and one of 9 January, cleaned
    on 10 January with seven days of retention (instants in microseconds
    from 1 January). *)
Lemma cleanup_removes_old_keeps_new_witness :
  let old := written_record 0 {[ "from" := "a@b.com" ]} true in
  let recent := written_record (8 * day) {[ "from" := "c@d.com" ]} true in
  let self :=
    {| history_file := "processed_emails.json";
       max_history_days := 7;
       processed_emails :=
         {| emails := Some {[ "m1" := old; "m2" := recent ]};
            last_cleanup := Some 0%Z |} |} in
  get_emails (_cleanup_old_entries self (9 * day)) !! "m1" = None
  /\ get_emails (_cleanup_old_entries self (9 * day)) !! "m2" = Some recent.
Proof.
  intros old recent self. split.
  - assert (get_emails self !! "m1" = Some old) as H by (vm_compute; reflexivity).
    apply (proj1 (cleanup_removes_old_keeps_new self (9 * day) "m1" old H)).
    vm_compute. reflexivity.
  - assert (get_emails self !! "m2" = Some recent) as H
      by (vm_compute; reflexivity).
    apply (proj1 (proj2
             (cleanup_removes_old_keeps_new self (9 * day) "m2" recent H))).
    vm_compute. reflexivity.
Defined.

(** C6, as the code has it: two calls with the same id leave at most one
    record under that id, and any record left is the one of the second
    call; the record is there whenever the cleanup that the second call
    may start finds it within retention (its cutoff is not after the
    instant of the call); and after any run of calls the ledger lists at
    most one entry per id. *)
Theorem mark_twice_keeps_one_record
    (self : EmailTracker.t) (now1 cleanup1 now2 cleanup2 : Z)
    (email_id : string) (data1 data2 : gmap string string)
    (sent1 sent2 : bool) :
  let after :=
    mark_as_processed
      (mark_as_processed self now1 cleanup1 email_id data1 sent1)
      now2 cleanup2 email_id data2 sent2 in
  ((cleanup2 - max_history_days self * day <= now2)%Z ->
     get_emails after !! email_id = Some (written_record now2 data2 sent2)
     /\ length (entries_for email_id after) = 1%nat
     /\ is_processed after email_id = true)
  /\ (forall r, get_emails after !! email_id = Some r ->
                r = written_record now2 data2 sent2)
  /\ (length (entries_for email_id after) <= 1)%nat
  /\ (forall calls other,
        (length (entries_for other (run_marks self calls)) <= 1)%nat).
Proof.
  intros after.
  assert (forall t i, (length (entries_for i t) <= 1)%nat) as Hmost.
  { intros t i. rewrite entries_for_length. destruct (_ !! i); lia. }
  pose proof (mark_lookup
                (mark_as_processed self now1 cleanup1 email_id data1 sent1)
                now2 cleanup2 email_id data2 sent2 email_id) as Hl.
  fold after in Hl. rewrite lookup_insert_eq in Hl.
  unfold cutoff_date in Hl. rewrite max_history_days_mark in Hl.
  cbn [processed_at written_record] in Hl.
  split; [|split; [|split]].
  - intros Hle.
    assert (get_emails after !! email_id
            = Some (written_record now2 data2 sent2)) as Hs.
    { rewrite Hl, (proj2 (Z.ltb_ge _ _)), andb_false_r; [done|lia]. }
    split; [done|]. split.
    + by rewrite entries_for_length, Hs.
    + unfold is_processed. rewrite Hs. by apply bool_decide_eq_true.
  - intros r. rewrite Hl. destruct (_ && _); congruence.
  - apply Hmost.
  - intros calls other. apply Hmost.
Qed.

(** The default retention of seven days, the second call an hour after
    the first and starting a cleanup a microsecond later. *)
Lemma mark_twice_keeps_one_record_witness :
  let self :=
    {| history_file := "processed_emails.json";
       max_history_days := 7;
       processed_emails := {| emails := None; last_cleanup := Some 0%Z |} |} in
  let first : gmap string string :=
    {[ "subject" := "Hello"; "from" := "a@b.com" ]} in
  let second : gmap string string :=
    {[ "subject" := "Hello again"; "from" := "a@b.com";
       "category" := "customer_inquiry" ]} in
  let after :=
    mark_as_processed
      (mark_as_processed self (23 * hour) (23 * hour + 1) "m1" first false)
      (25 * hour) (25 * hour + 1) "m1" second true in
  cleanup_due (mark_as_processed self (23 * hour) (23 * hour + 1) "m1" first false)
    (25 * hour) = true
  /\ get_emails after !! "m1" = Some (written_record (25 * hour) second true)
  /\ length (entries_for "m1" after) = 1%nat.
Proof.
  intros self first second after. split; [vm_compute; reflexivity|].
  assert ((25 * hour + 1 - max_history_days self * day <= 25 * hour)%Z) as H
    by (vm_compute; discriminate).
  destruct (proj1 (mark_twice_keeps_one_record self (23 * hour)
                     (23 * hour + 1) (25 * hour) (25 * hour + 1) "m1"
                     first second false true) H) as (H1 & H2 & _).
  split; [exact H1|exact H2].
Defined.

(** C6 as stated fails when nothing is retained: with
    [max_history_days = 0] the cleanup started by the second call
    removes the record that call has just written. *)
Lemma mark_twice_counterexample :
  let self :=
    {| history_file := "processed_emails.json";
       max_history_days := 0;
       processed_emails := {| emails := None; last_cleanup := Some 0%Z |} |} in
  let data : gmap string string :=
    {[ "subject" := "Hello"; "from" := "a@b.com" ]} in
  let after :=
    mark_as_processed
      (mark_as_processed self (23 * hour) (23 * hour + 1) "m1" data false)
      (25 * hour) (25 * hour + 1) "m1" data true in
  get_emails after !! "m1" = None
  /\ entries_for "m1" after = []
  /\ is_processed after "m1" = false.
Proof. cbv zeta. repeat apply conj; vm_compute; reflexivity. Qed.

End TrackerClaims.

(** ** Properties of the decision *)

Section DecisionClaims.
Import Text EmailFilter EmailTracker EmailAutomationSystem.

(** C5: an e-mail that is not in the ledger and that the filter lets
    through does not proceed, and the reason names the limit and the
    window, as soon as the ledger holds [max_emails_per_sender] records,
    under distinct ids, that come from its sender (letter case apart) and
    were processed inside the trailing window of [rate_limit_window]
    hours. *)
Theorem rate_limit_blocks
    (self : EmailAutomationSystem.t) (now : Z) (e : gmap string string)
    (ids : list string) (why : skip_reason) :
  (forall i, e !! "id" = Some i -> is_processed (email_tracker self) i = false) ->
  should_skip_email e (spam_threshold (config self)) = Some (false, why) ->
  NoDup ids ->
  (max_emails_per_sender (config self) <= Z.of_nat (length ids))%Z ->
  (forall i, In i ids ->
     exists r,
       get_emails (email_tracker self) !! i = Some r
       /\ (now - rate_limit_window (config self) * hour <= processed_at r)%Z
       /\ lower (from r) = lower (get e "from" "")) ->
  should_process_email self now e
  = Some (false,
          Rate_limit_exceeded (max_emails_per_sender (config self))
            (rate_limit_window (config self))).
Proof.
  intros Hnew Hskip Hnd Hmax Hids. unfold should_process_email. cbv zeta.
  assert (match e !! "id" with
          | Some i => is_processed (email_tracker self) i
          | None => false
          end = false) as -> by (destruct (e !! "id"); auto).
  rewrite Hskip. cbn [mbind option_bind].
  rewrite count_sender_emails_counted.
  pose proof (counted_lower_bound
                (counted now (rate_limit_window (config self))
                   (get e "from" ""))
                ids (get_emails (email_tracker self)) Hnd) as Hc.
  rewrite (proj2 (Z.leb_le _ _)); [done|].
  etransitivity; [exact Hmax|]. apply Nat2Z.inj_le, Hc.
  intros i Hi. destruct (Hids i Hi) as (r & Hr & Ht & Hf).
  exists r. split; [done|]. unfold counted.
  rewrite (proj2 (Z.leb_le _ _) Ht), Hf. apply String.eqb_refl.
Qed.

(** Three records of a@b.com inside the window, a limit of three, and a
    fourth e-mail from A@B.com. *)
Lemma rate_limit_blocks_witness :
  let empty :=
    {| history_file := "processed_emails.json";
       max_history_days := 7;
       processed_emails := {| emails := None; last_cleanup := Some 0%Z |} |} in
  let mail (i : string) : gmap string string :=
    {[ "id" := i; "subject" := "Question"; "from" := "a@b.com" ]} in
  let ledger :=
    mark_as_processed
      (mark_as_processed
         (mark_as_processed empty hour hour "1" (mail "1") true)
         (2 * hour) (2 * hour) "2" (mail "2") true)
      (3 * hour) (3 * hour) "3" (mail "3") true in
  let self := {| email_tracker := ledger; config := default_config |} in
  let fourth : gmap string string :=
    {[ "id" := "4"; "subject" := "Question"; "from" := "A@B.com" ]} in
  count_sender_emails ledger (4 * hour) "A@B.com" 24 = 3%nat
  /\ should_process_email self (4 * hour) fourth
     = Some (false, Rate_limit_exceeded 3 24).
Proof.
  intros empty mail ledger self fourth. split; [vm_compute; reflexivity|].
  apply (rate_limit_blocks self (4 * hour) fourth ["1"; "2"; "3"] No_reason).
  - intros i Hi. vm_compute in Hi. injection Hi as <-. vm_compute. reflexivity.
  - vm_compute. reflexivity.
  - apply (bool_decide_unpack _). vm_compute. exact I.
  - vm_compute. discriminate.
  - intros i [<-|[<-|[<-|[]]]]; eexists;
      (split; [vm_compute; reflexivity|]);
      (split; [vm_compute; discriminate | vm_compute; reflexivity]).
Defined.

End DecisionClaims.

(** * Further properties *)

(** ** Sanitising the body *)

Section SanitizeFacts.
Import Text EmailFilter.

Lemma scheme_at_first scheme s :
  scheme <> "" -> scheme_at scheme s = true ->
  exists c p s', scheme = String c p /\ s = String c s'.
Proof.
  intros Hne. unfold scheme_at.
  destruct scheme as [|a p]; [done|]. destruct s as [|b s']; [done|].
  simpl. case_decide; [|done]. subst. eauto.
Qed.

Lemma url_at_first s : url_at s = true -> exists s', s = String "h" s'.
Proof.
  intros [H|H]%orb_true_iff;
    apply scheme_at_first in H as (c & p & s' & Hp & ->); try done;
    injection Hp as <- _; eauto.
Qed.

Lemma has_url_cons c s : c <> "h"%char -> has_url (String c s) = has_url s.
Proof.
  intros Hc. simpl. destruct (url_at (String c s)) eqn:E; [|done].
  apply url_at_first in E as [s' [= -> _]]. done.
Qed.

Lemma has_url_placeholder s : has_url ("[URL REMOVED]" +:+ s) = has_url s.
Proof.
  change ("[URL REMOVED]" +:+ s)
    with (String "[" (String "U" (String "R" (String "L" (String " "
         (String "R" (String "E" (String "M" (String "O" (String "V"
         (String "E" (String "D" (String "]" s))))))))))))).
  by rewrite !has_url_cons.
Qed.

(** A copied character, recognised by its not being the first of the
    placeholder, comes from the text. *)
Lemma sub_urls_copied s c t :
  sub_urls false s = String c t -> c <> "["%char ->
  exists s', s = String c s' /\ url_at s = false /\ t = sub_urls false s'.
Proof.
  destruct s as [|a s']; [done|]. cbn [sub_urls].
  destruct (url_at (String a s')).
  - intros [= <- _]. done.
  - intros [= <- <-] _. eauto.
Qed.

Lemma sub_urls_first_not_space s c t :
  sub_urls false s = String c t -> isspace c = false ->
  exists a s', s = String a s' /\ isspace a = false.
Proof.
  destruct s as [|a s']; [done|]. cbn [sub_urls].
  destruct (url_at (String a s')) eqn:E.
  - apply url_at_first in E as [r [= -> ->]]. intros _ _. by eauto.
  - intros [= <- _] Hc. eauto.
Qed.

Lemma after_prefix_sub_urls scheme s t :
  has_char "[" scheme = false ->
  after_prefix scheme (sub_urls false s) = Some t ->
  exists s', after_prefix scheme s = Some s' /\ t = sub_urls false s'.
Proof.
  revert s. induction scheme as [|a p IH]; intros s Hp H.
  - injection H as <-. by exists s.
  - simpl in Hp. apply orb_false_iff in Hp as [Ha Hp].
    case_decide as Hne; [done|]. clear Ha.
    destruct (sub_urls false s) as [|b out] eqn:E; [done|].
    simpl in H. case_decide as Hab; [|done]. subst b.
    apply sub_urls_copied in E as (s' & -> & _ & ->); [|done].
    destruct (IH s' Hp H) as (s'' & Hs & ->).
    exists s''. simpl. by rewrite decide_True.
Qed.

Lemma scheme_at_sub_urls scheme s :
  has_char "[" scheme = false ->
  scheme_at scheme (sub_urls false s) = true -> scheme_at scheme s = true.
Proof.
  intros Hp. unfold scheme_at.
  destruct (after_prefix scheme (sub_urls false s)) as [[|c t]|] eqn:E;
    try done.
  intros Hc%negb_true_iff.
  apply after_prefix_sub_urls in E as (s' & -> & Ht); [|done].
  symmetry in Ht.
  apply sub_urls_first_not_space in Ht as (a & s'' & -> & Ha); [|done].
  by rewrite Ha.
Qed.

Lemma url_at_sub_urls s : url_at s = false -> url_at (sub_urls false s) = false.
Proof.
  intros H. apply not_true_is_false. intros [Hu|Hu]%orb_true_iff;
    apply scheme_at_sub_urls in Hu; try done;
    unfold url_at in H; rewrite Hu in H; by destruct (scheme_at _ _).
Qed.

Lemma has_url_sub_urls in_match s : has_url (sub_urls in_match s) = false.
Proof.
  revert in_match. induction s as [|c s IH]; intros in_match; [by destruct in_match|].
  destruct in_match; cbn [sub_urls].
  - destruct (isspace c) eqn:Ec; [|apply IH].
    rewrite has_url_cons; [apply IH|]. intros ->. done.
  - destruct (url_at (String c s)) eqn:E.
    + rewrite has_url_placeholder. apply IH.
    + pose proof (url_at_sub_urls _ E) as Hu. cbn [sub_urls] in Hu.
      rewrite E in Hu. cbn [has_url]. by rewrite Hu, IH.
Qed.

Lemma sub_urls_no_url s : has_url s = false -> sub_urls false s = s.
Proof.
  induction s as [|c s IH]; [done|]. cbn [has_url sub_urls].
  intros [Hu Hs]%orb_false_iff. by rewrite Hu, IH.
Qed.

Lemma after_prefix_app p a r t :
  after_prefix p a = Some t -> after_prefix p (a +:+ r) = Some (t +:+ r).
Proof.
  revert a. induction p as [|c p IH]; intros a H.
  - by injection H as <-.
  - destruct a as [|b a]; [done|]. rewrite app_String. simpl in *.
    case_decide; [|done]. by apply IH.
Qed.

Lemma url_at_app a r : url_at a = true -> url_at (a +:+ r) = true.
Proof.
  assert (forall p, scheme_at p a = true -> scheme_at p (a +:+ r) = true) as H.
  { intros p. unfold scheme_at.
    destruct (after_prefix p a) as [[|c t]|] eqn:E; try done.
    by rewrite (after_prefix_app _ _ r _ E), app_String. }
  unfold url_at. intros [Hu|Hu]%orb_true_iff; rewrite (H _ Hu); [done|].
  apply orb_true_r.
Qed.

Lemma has_url_app a r : has_url a = true -> has_url (a +:+ r) = true.
Proof.
  induction a as [|c a IH].
  - intros H. by vm_compute in H.
  - rewrite app_String. cbn [has_url]. intros [H|H]%orb_true_iff.
    + rewrite <- app_String, (url_at_app _ _ H). done.
    + rewrite (IH H). apply orb_true_r.
Qed.

Lemma substring_prefix n s : exists r, s = String.substring 0 n s +:+ r.
Proof.
  revert s. induction n as [|n IH]; intros s.
  - exists s. by destruct s.
  - destruct s as [|c s]; [by exists ""|].
    destruct (IH s) as [r Hr]. exists r. simpl. by rewrite app_String, <- Hr.
Qed.

Lemma substring_length_le n s : (String.length (String.substring 0 n s) <= n)%nat.
Proof.
  revert s. induction n as [|n IH]; intros s.
  - by destruct s.
  - destruct s as [|c s]; simpl; [lia|]. specialize (IH s). lia.
Qed.

Lemma string_length_app a b :
  String.length (a +:+ b) = (String.length a + String.length b)%nat.
Proof.
  induction a as [|c a IH]; [done|]. rewrite app_String. simpl. by rewrite IH.
Qed.

Lemma has_url_substring n s :
  has_url s = false -> has_url (String.substring 0 n s) = false.
Proof.
  intros H. apply not_true_is_false. intros Hu.
  destruct (substring_prefix n s) as [r Hr].
  apply (has_url_app _ r) in Hu. rewrite <- Hr in Hu. congruence.
Qed.

Lemma sanitized_body e :
  get (sanitize_email_for_response e) "body" ""
  = let stripped := sub_urls false (get e "body" "") in
    if (max_body_length <? String.length stripped)%nat
    then String.substring 0 max_body_length stripped +:+ "... [TRUNCATED]"
    else stripped.
Proof.
  unfold sanitize_email_for_response, get at 1. cbv zeta.
  destruct (_ <? _)%nat; by rewrite lookup_insert_eq.
Qed.

(** After [sanitize_email_for_response] no URL is left in what is kept of
    the body: the body is the text with every match of the pattern
    replaced, whole when it has at most 5000 characters, else its first
    5000 characters followed by the truncation mark, and neither holds a
    match. *)
Theorem sanitize_removes_urls (e : gmap string string) :
  let stripped := sub_urls false (get e "body" "") in
  let body' := get (sanitize_email_for_response e) "body" "" in
  has_url stripped = false
  /\ (((String.length stripped <= max_body_length)%nat /\ body' = stripped)
      \/ ((max_body_length < String.length stripped)%nat
          /\ body' = String.substring 0 max_body_length stripped
                     +:+ "... [TRUNCATED]"
          /\ has_url (String.substring 0 max_body_length stripped) = false)).
Proof.
  intros stripped body'.
  pose proof (has_url_sub_urls false (get e "body" "")) as Hs.
  split; [done|]. unfold body'. rewrite sanitized_body. cbv zeta.
  fold stripped.
  destruct (max_body_length <? String.length stripped)%nat eqn:E.
  - right. apply Nat.ltb_lt in E. split; [done|]. split; [done|].
    by apply has_url_substring.
  - left. apply Nat.ltb_ge in E. done.
Qed.

(** A text without URL is left as it is by the replacement, so sanitising
    again changes nothing once nothing was truncated, and a record whose
    body has no URL and at most 5000 characters is returned unchanged. *)
Theorem sanitize_stable (e : gmap string string) :
  (String.length (sub_urls false (get e "body" "")) <= max_body_length)%nat ->
  sanitize_email_for_response (sanitize_email_for_response e)
  = sanitize_email_for_response e
  /\ (forall body, e !! "body" = Some body -> has_url body = false ->
                   sanitize_email_for_response e = e).
Proof.
  intros Hlen.
  assert (forall e' : gmap string string,
            (String.length (sub_urls false (get e' "body" ""))
             <= max_body_length)%nat ->
            sanitize_email_for_response e'
            = <["body" := sub_urls false (get e' "body" "")]> e') as Hshort.
  { intros e' H. unfold sanitize_email_for_response. cbv zeta.
    by rewrite (proj2 (Nat.ltb_ge _ _) H). }
  split.
  - rewrite (Hshort e Hlen).
    set (stripped := sub_urls false (get e "body" "")) in *.
    assert (get (<["body" := stripped]> e) "body" "" = stripped) as Hg
      by (unfold get; by rewrite lookup_insert_eq).
    assert (sub_urls false stripped = stripped) as Hid
      by apply sub_urls_no_url, has_url_sub_urls.
    rewrite Hshort; rewrite Hg, Hid; [|done]. by rewrite insert_insert_eq.
  - intros body Hb Hu.
    assert (get e "body" "" = body) as Hg by (unfold get; by rewrite Hb).
    rewrite (Hshort e Hlen), Hg, (sub_urls_no_url _ Hu).
    by apply insert_id.
Qed.

Lemma sanitize_stable_witness :
  let e : gmap string string :=
    {[ "from" := "a@b.com"; "body" := "Please see https://example.com/x now" ]} in
  get (sanitize_email_for_response e) "body" "" = "Please see [URL REMOVED] now"
  /\ sanitize_email_for_response (sanitize_email_for_response e)
     = sanitize_email_for_response e.
Proof.
  intros e. split; [vm_compute; reflexivity|].
  assert ((String.length (sub_urls false (get e "body" ""))
           <= max_body_length)%nat) as H
    by (apply Nat.leb_le; vm_compute; reflexivity).
  exact (proj1 (sanitize_stable e H)).
Defined.

(** [sanitize_email_for_response] touches the body only: every other key
    keeps its value, the body is always present afterwards, and it never
    has more than [max_body_length] characters and the 15 of the
    truncation mark. *)
Theorem sanitize_frame_and_bound (e : gmap string string) :
  (forall key, key <> "body" -> sanitize_email_for_response e !! key = e !! key)
  /\ is_Some (sanitize_email_for_response e !! "body")
  /\ (String.length (get (sanitize_email_for_response e) "body" "")
      <= max_body_length + 15)%nat.
Proof.
  split; [|split].
  - intros key Hk. unfold sanitize_email_for_response. cbv zeta.
    destruct (_ <? _)%nat; by rewrite !lookup_insert_ne.
  - unfold sanitize_email_for_response. cbv zeta.
    destruct (_ <? _)%nat; by rewrite lookup_insert_eq.
  - rewrite sanitized_body. cbv zeta.
    destruct (max_body_length <? _)%nat eqn:E.
    + rewrite string_length_app.
      pose proof (substring_length_le max_body_length
                    (sub_urls false (get e "body" ""))).
      change (String.length "... [TRUNCATED]") with 15%nat. lia.
    + apply Nat.ltb_ge in E. lia.
Qed.

Lemma sanitize_frame_and_bound_witness :
  let e : gmap string string :=
    {[ "from" := "a@b.com"; "subject" := "Hi" ]} in
  sanitize_email_for_response e !! "from" = Some "a@b.com"
  /\ sanitize_email_for_response e !! "body" = Some "".
Proof.
  intros e. split; [|vm_compute; reflexivity].
  rewrite (proj1 (sanitize_frame_and_bound e) "from"); [|done].
  vm_compute. reflexivity.
Defined.

End SanitizeFacts.

(** ** The filter: thresholds, reasons, senders without address *)

Section FilterMore.
Import Text Re EmailFilter.

Lemma should_skip_email_cases e threshold :
  exists score,
    calculate_spam_score e = Some (score, reasons_of e)
    /\ (score == Qmin 1 (total e))%Q
    /\ should_skip_email e threshold
       = Some (if is_no_reply_address (get e "from" "")
               then (true, No_reply_address)
               else if Qle_bool threshold score
               then (true, High_spam_score score (reasons_of e))
               else match payment_hit e with
                    | Some domain => (true, Payment_processor domain)
                    | None => (false, No_reason)
                    end).
Proof.
  destruct (calculate_spam_score_spec e) as (score & Hc & Hq).
  exists score. split; [done|]. split; [done|].
  unfold should_skip_email, payment_hit. rewrite Hc.
  destruct (is_no_reply_address _); [done|]. cbn [mbind option_bind].
  destruct (Qle_bool threshold score); [done|].
  by destruct (payment_rule _ _ _).
Qed.

Lemma score_in_unit e score reasons :
  calculate_spam_score e = Some (score, reasons) -> (0 <= score <= 1)%Q.
Proof.
  destruct (calculate_spam_score_spec e) as (s & Hc & Hq).
  rewrite Hc. intros [= <- _]. rewrite Hq. split.
  - apply Q.min_glb; [lra|apply total_nonneg].
  - apply Q.le_min_l.
Qed.

(** Raising the threshold never turns a pass into a skip: an e-mail let
    through at one threshold is let through at every higher one, and an
    e-mail skipped at one threshold is skipped at every lower one. *)
Theorem threshold_monotone (e : gmap string string) (low high : Q) :
  (low <= high)%Q ->
  (forall reason, should_skip_email e low = Some (false, reason) ->
                  should_skip_email e high = Some (false, No_reason))
  /\ (forall reason, should_skip_email e high = Some (true, reason) ->
                     exists reason', should_skip_email e low = Some (true, reason')).
Proof.
  intros Hle.
  destruct (should_skip_email_cases e low) as (score & Hc & _ & Hlow).
  destruct (should_skip_email_cases e high) as (score' & Hc' & _ & Hhigh).
  assert (score' = score) as -> by congruence.
  rewrite Hlow, Hhigh. clear Hlow Hhigh.
  destruct (is_no_reply_address _); [split; intros; [done|by eexists]|].
  destruct (Qle_bool low score) eqn:El.
  - split; [done|]. intros. by eexists.
  - assert (Qle_bool high score = false) as ->.
    { apply not_true_is_false. intros Hh%Qle_bool_iff.
      assert (Qle_bool low score = true) as Ht
        by (apply Qle_bool_iff; eapply Qle_trans; eassumption).
      congruence. }
    destruct (payment_hit e); split; intros; try done; by eexists.
Qed.

Lemma threshold_monotone_witness :
  let e : gmap string string :=
    {[ "subject" := "You are a lottery winner"; "from" := "x@y.org" ]} in
  should_skip_email e (1 # 10) = Some (true, High_spam_score (2 # 10)
                                     ["Spam keywords found: lottery, winner"])
  /\ should_skip_email e (3 # 10) = Some (false, No_reason)
  /\ should_skip_email e (5 # 10) = Some (false, No_reason).
Proof.
  intros e. split; [vm_compute; reflexivity|].
  assert (should_skip_email e (3 # 10) = Some (false, No_reason)) as H
    by (vm_compute; reflexivity).
  split; [exact H|].
  apply (proj1 (threshold_monotone e (3 # 10) (5 # 10) ltac:(lra)) _ H).
Defined.

(** At the ends of the scale: a threshold of 0 or less skips every
    e-mail, and a threshold above 1 leaves the two fixed rules alone to
    decide (no-reply sender, payment processor). *)
Theorem threshold_extremes (e : gmap string string) (threshold : Q) :
  ((threshold <= 0)%Q ->
     exists reason, should_skip_email e threshold = Some (true, reason))
  /\ ((1 < threshold)%Q ->
        should_skip_email e threshold
        = Some (if is_no_reply_address (get e "from" "")
                then (true, No_reply_address)
                else match payment_hit e with
                     | Some domain => (true, Payment_processor domain)
                     | None => (false, No_reason)
                     end)).
Proof.
  destruct (should_skip_email_cases e threshold) as (score & Hc & _ & ->).
  pose proof (score_in_unit _ _ _ Hc) as [H0 H1].
  split; intros Ht.
  - destruct (is_no_reply_address _); [by eexists|].
    rewrite (proj2 (Qle_bool_iff threshold score)); [by eexists|].
    eapply Qle_trans; eassumption.
  - destruct (is_no_reply_address _); [done|].
    destruct (Qle_bool threshold score) eqn:E; [|done].
    apply Qle_bool_iff in E. exfalso.
    apply (Qlt_irrefl 1). eapply Qlt_le_trans; [exact Ht|].
    eapply Qle_trans; eassumption.
Qed.

Lemma threshold_extremes_witness :
  let e : gmap string string :=
    {[ "subject" := "Hello"; "body" := "How are you?"; "from" := "x@y.org" ]} in
  calculate_spam_score e = Some (0%Q, [])
  /\ exists reason, should_skip_email e 0 = Some (true, reason).
Proof.
  intros e. split; [vm_compute; reflexivity|].
  apply (proj1 (threshold_extremes e 0)). lra.
Defined.

Lemma clamped_sum_zero (a b c d f g : Q) :
  (0 <= a)%Q -> (0 <= b)%Q -> (0 <= c)%Q -> (0 <= d)%Q -> (0 <= f)%Q ->
  (0 <= g)%Q ->
  (Qmin 1 (a + b + c + d + f + g) == 0)%Q
  <-> (a == 0 /\ b == 0 /\ c == 0 /\ d == 0 /\ f == 0 /\ g == 0)%Q.
Proof.
  intros.
  destruct (Q.min_spec 1 (a + b + c + d + f + g)) as [[Hlt E]|[Hle E]];
    rewrite E.
  - split; [lra|]. intros (?&?&?&?&?&?). lra.
  - split; [intros; repeat split; lra|]. intros (?&?&?&?&?&?). lra.
Qed.

Lemma count_zero l : (count l == 0)%Q <-> l = [].
Proof.
  unfold count. destruct l as [|x l]; [done|]. split; [|done].
  intros H. exfalso. simpl length in H. rewrite Nat2Z.inj_succ in H.
  unfold Qeq, inject_Z in H. simpl in H. lia.
Qed.

Lemma scaled_zero (x k : Q) : (0 < k)%Q -> (x * k == 0)%Q <-> (x == 0)%Q.
Proof. intros. split; intros; nra. Qed.

Lemma keyword_points_zero e : (keyword_points e == 0)%Q <-> keyword_hits e = [].
Proof.
  unfold keyword_points. destruct (keyword_hits e) as [|k l]; [done|].
  split; [|done]. intros H. exfalso.
  pose proof (count_nonneg l) as Hl.
  assert (count (k :: l) == count l + 1)%Q as Hc.
  { unfold count. simpl length. rewrite Nat2Z.inj_succ, <- Z.add_1_r.
    by rewrite inject_Z_plus. }
  revert H. rewrite Hc. generalize (count l) Hl. clear. intros x Hx H.
  destruct (Q.min_spec (5 # 10) ((x + 1) * (1 # 10))) as [[_ E]|[_ E]];
    rewrite E in H; nra.
Qed.

(** A score of 0 comes with no reason and any reason with a positive
    score: each step that appends a reason adds a positive amount. *)
Theorem zero_score_iff_no_reason
    (e : gmap string string) (score : Q) (reasons : list string) :
  calculate_spam_score e = Some (score, reasons) ->
  ((score == 0)%Q <-> reasons = []) /\ (reasons <> [] -> (0 < score)%Q).
Proof.
  intros Hc.
  destruct (calculate_spam_score_spec e) as (s & Hs & Hq).
  rewrite Hs in Hc. injection Hc as <- <-.
  assert ((s == 0)%Q <-> reasons_of e = []) as Hiff.
  { rewrite Hq.
    rewrite (clamped_sum_zero (no_reply_points e) (sender_points e)
               (keyword_points e) (caps_points e) (attachment_points e)
               (shortener_points e)).
    - rewrite keyword_points_zero.
      unfold attachment_points, shortener_points.
      rewrite !scaled_zero, !count_zero by lra.
      unfold reasons_of, no_reply_points, sender_points, caps_points.
      destruct (is_no_reply_address _), (is_suspicious_sender _),
        (keyword_hits e), (caps_fires _),
        (hits suspicious_extensions (body_of e)),
        (hits url_shorteners (body_of e)); cbn [fmap list_fmap app];
        (split; [intros (?&?&?&?&?&?); (done || lra)
                | intros; (done || by repeat split)]).
    - unfold no_reply_points. destruct (is_no_reply_address _); lra.
    - unfold sender_points. destruct (is_suspicious_sender _); lra.
    - apply keyword_points_nonneg.
    - apply caps_points_nonneg.
    - unfold attachment_points.
      pose proof (count_nonneg (hits suspicious_extensions (body_of e))). nra.
    - unfold shortener_points.
      pose proof (count_nonneg (hits url_shorteners (body_of e))). nra. }
  split; [done|]. intros Hne.
  assert (0 <= s)%Q as H0.
  { rewrite Hq. apply Q.min_glb; [lra|apply total_nonneg]. }
  destruct (Qlt_le_dec 0 s) as [|Hle]; [done|]. exfalso. apply Hne, Hiff. lra.
Qed.

Lemma zero_score_iff_no_reason_witness :
  let e : gmap string string :=
    {[ "subject" := "Invoice"; "body" := "see bit.ly/x"; "from" := "a@b.com" ]} in
  calculate_spam_score e = Some ((2 # 10)%Q, ["URL shortener detected: bit.ly"])
  /\ (0 < 2 # 10)%Q.
Proof.
  intros e.
  assert (calculate_spam_score e
          = Some ((2 # 10)%Q, ["URL shortener detected: bit.ly"])) as H
    by (vm_compute; reflexivity).
  split; [exact H|].
  apply (proj2 (zero_score_iff_no_reason e _ _ H)). discriminate.
Defined.

(** A string matched by a pattern holds every literal character the
    pattern asks for. *)
Lemma match_here_asks c p s :
  asks_for c p = true -> match_here p s = true -> has_char c s = true.
Proof.
  revert s. induction p as [|[cl|cl] p IH]; intros s Ha Hm; [done| |].
  - destruct s as [|a s]; [done|]. cbn [match_here] in Hm.
    apply andb_true_iff in Hm as [Hc Hm]. cbn [asks_for existsb] in Ha.
    apply orb_true_iff in Ha as [Ha|Ha].
    + destruct cl as [b|]; [|done]. case_decide; [|done]. subst b.
      simpl in Hc. destruct (decide (c = a)) as [<-|]; [|done].
      simpl. by rewrite decide_True.
    + simpl. rewrite (IH s Ha Hm). apply orb_true_r.
  - cbn [asks_for existsb] in Ha. rewrite orb_false_l in Ha.
    cbn [match_here] in Hm. induction s as [|a s IHs]; [by apply IH|].
    apply orb_true_iff in Hm as [Hm|Hm]; [|by apply IH].
    apply andb_true_iff in Hm as [_ Hm]. simpl. rewrite (IHs Hm).
    apply orb_true_r.
Qed.

Lemma run_to_gt_has_char c s g :
  run_to_gt s = Some g -> has_char c g = true -> has_char c s = true.
Proof.
  revert g. induction s as [|a s IH]; intros g; [done|]. simpl.
  case_decide as Hgt; [by intros [= <-]|].
  destruct (run_to_gt s) as [g'|]; [|done]. intros [= <-]. simpl.
  intros [Hc|Hc]%orb_true_iff; [by rewrite Hc|].
  rewrite (IH g' eq_refl Hc). apply orb_true_r.
Qed.

Lemma search_angle_has_char c s g :
  search_angle s = Some g -> has_char c g = true -> has_char c s = true.
Proof.
  induction s as [|a s IH]; [done|]. cbn [search_angle].
  intros H Hg. cbn [has_char].
  assert (search_angle s = Some g -> has_char c s = true) as IH'
    by (intros; by apply IH).
  case_decide as Hlt.
  - destruct (run_to_gt s) as [[|b r]|] eqn:E.
    + rewrite IH' by done. apply orb_true_r.
    + injection H as <-. rewrite (run_to_gt_has_char c s _ E Hg).
      apply orb_true_r.
    + rewrite IH' by done. apply orb_true_r.
  - rewrite IH' by done. apply orb_true_r.
Qed.

Lemma address_part_has_char c s :
  has_char c (address_part s) = true -> has_char c s = true.
Proof.
  unfold address_part. destruct (_ && _); [|done].
  destruct (search_angle s) as [g|] eqn:E; [|done].
  by apply search_angle_has_char.
Qed.

Lemma is_suspicious_sender_has_at s :
  is_suspicious_sender s = true -> has_char "@" s = true.
Proof.
  unfold is_suspicious_sender. destruct (existsb _ WHITELIST_DOMAINS); [done|].
  intros (p & Hp & Hm)%existsb_exists.
  apply address_part_has_char. rewrite <- (has_char_lower "@") by done.
  apply (match_here_asks _ (compile p)); [|done].
  assert (forallb (fun p => asks_for "@" (compile p)) SUSPICIOUS_SENDERS = true)
    as Hall by (vm_compute; reflexivity).
  by apply (proj1 (forallb_forall _ _) Hall).
Qed.

(** A from field without at-sign is neither a no-reply address nor a
    suspicious sender, whatever else it holds: every pattern of both tables
    asks for the at-sign.  Such a sender adds nothing to the score and is
    never skipped by the no-reply rule. *)
Theorem sender_without_at_sign (e : gmap string string) (threshold : Q) :
  has_char "@" (get e "from" "") = false ->
  is_no_reply_address (get e "from" "") = false
  /\ is_suspicious_sender (get e "from" "") = false
  /\ no_reply_points e = 0%Q /\ sender_points e = 0%Q
  /\ should_skip_email e threshold <> Some (true, No_reply_address).
Proof.
  intros H.
  assert (has_char "@" (from_of e) = false) as Hl
    by (unfold from_of; by rewrite has_char_lower).
  pose proof (is_no_reply_address_no_at _ H) as Hn.
  assert (forall s, has_char "@" s = false -> is_suspicious_sender s = false)
    as Hs.
  { intros s Hs. apply not_true_is_false.
    intros Ht%is_suspicious_sender_has_at. congruence. }
  split; [done|]. split; [by apply Hs|]. split; [|split].
  - unfold no_reply_points. by rewrite (is_no_reply_address_no_at _ Hl).
  - unfold sender_points. by rewrite (Hs _ Hl).
  - by apply no_reply_branch_only.
Qed.

Lemma sender_without_at_sign_witness :
  let e : gmap string string :=
    {[ "subject" := "Hi"; "from" := "noreply paypal.security prize.example" ]} in
  is_no_reply_address (get e "from" "") = false
  /\ is_suspicious_sender (get e "from" "") = false.
Proof.
  intros e.
  assert (has_char "@" (get e "from" "") = false) as H by (vm_compute; reflexivity).
  destruct (sender_without_at_sign e (5 # 10) H) as (H1 & H2 & _).
  split; [exact H1|exact H2].
Defined.

End FilterMore.

(** ** The ledger: statistics, recent senders, framing, cleanup *)

Section TrackerMore.
Import Text EmailTracker.

Lemma fold_categories_lookup (l : list LedgerRecord) (acc : gmap string nat) c :
  fold_left
    (fun categories email_data =>
       let category := category email_data in
       <[category := (default 0 (categories !! category) + 1)%nat]> categories)
    l acc !! c
  = match in_category c l with
    | O => acc !! c
    | S n => Some (default 0 (acc !! c) + S n)%nat
    end.
Proof.
  revert acc. induction l as [|d l IH]; intros acc; [done|].
  cbn [fold_left]. rewrite IH. unfold in_category. cbn [List.filter].
  destruct (String.eqb (category d) c) eqn:E.
  - apply String.eqb_eq in E. rewrite E, lookup_insert_eq. cbn [length default].
    destruct (length _); unfold id; f_equal; lia.
  - apply String.eqb_neq in E. by rewrite lookup_insert_ne.
Qed.

(** [get_processing_stats] counts what the ledger holds: the total is the
    number of records, the responses sent are the records flagged so and
    are no more than the total, and a category is listed exactly when a
    record has it, with the number of such records. *)
Theorem stats_count_the_ledger (self : EmailTracker.t) :
  let stats := get_processing_stats self in
  total_processed stats = length (records self)
  /\ responses_sent stats = length (List.filter response_sent (records self))
  /\ (responses_sent stats <= total_processed stats)%nat
  /\ (forall c,
        categories stats !! c
        = match in_category c (records self) with
          | O => None
          | S n => Some (S n)
          end).
Proof.
  unfold get_processing_stats, records. cbv zeta.
  set (m := get_emails self).
  assert (forall l : list LedgerRecord,
            (length (List.filter response_sent l) <= length l)%nat) as Hle.
  { induction l as [|d l IH]; simpl; [lia|]. destruct (response_sent d); simpl; lia. }
  destruct (decide (m = ∅)) as [->|Hne].
  - rewrite map_to_list_empty. by repeat split.
  - cbn [total_processed responses_sent categories].
    rewrite <- length_map_to_list, length_fmap.
    split; [done|]. split; [done|]. split.
    + rewrite <- (length_fmap snd (map_to_list m)). apply Hle.
    + intros c. rewrite fold_categories_lookup, lookup_empty.
      by destruct (in_category c _).
Qed.

Lemma fold_recent_elem (cutoff : Z) (l : list LedgerRecord) (acc : gset string) x :
  x ∈ fold_left
        (fun recent_senders email_data =>
           if (cutoff <=? processed_at email_data)%Z
           then {[ lower (from email_data) ]} ∪ recent_senders
           else recent_senders)
        l acc
  <-> x ∈ acc
      \/ exists d, In d l /\ (cutoff <= processed_at d)%Z /\ lower (from d) = x.
Proof.
  revert acc. induction l as [|d l IH]; intros acc; cbn [fold_left].
  - split; [by left|]. intros [H|(d & [] & _)]. done.
  - rewrite IH. destruct (cutoff <=? processed_at d)%Z eqn:E.
    + apply Z.leb_le in E. rewrite elem_of_union, elem_of_singleton. split.
      * intros [[->|H]|(d' & Hd & Hc & Hf)]; [|by left|].
        -- right. exists d. split; [by left|done].
        -- right. exists d'. split; [by right|done].
      * intros [H|(d' & [<-|Hd] & Hc & Hf)]; [by left; right| |].
        -- left. left. done.
        -- right. exists d'. done.
    + apply Z.leb_gt in E. split.
      * intros [H|(d' & Hd & Hc & Hf)]; [by left|].
        right. exists d'. split; [by right|done].
      * intros [H|(d' & [<-|Hd] & Hc & Hf)]; [by left|lia|].
        right. exists d'. done.
Qed.

Lemma filter_length_pos {A} (f : A -> bool) (l : list A) :
  (0 < length (List.filter f l))%nat <-> exists x, In x l /\ f x = true.
Proof.
  split.
  - destruct (List.filter f l) as [|x l'] eqn:E; [simpl; lia|]. intros _.
    exists x. apply filter_In. rewrite E. by left.
  - intros (x & Hx & Hf).
    assert (In x (List.filter f l)) as Hin by (by apply filter_In).
    destruct (List.filter f l); [done|simpl; lia].
Qed.

(** The set of [get_recent_senders] and the count of
    [count_sender_emails] agree: a sender, in lower case, is in the set
    exactly when the count for that sender over the same window is not
    zero. *)
Theorem recent_senders_are_counted
    (self : EmailTracker.t) (now hours : Z) (sender : string) :
  lower sender ∈ get_recent_senders self now hours
  <-> (0 < count_sender_emails self now sender hours)%nat.
Proof.
  unfold get_recent_senders, count_sender_emails. cbv zeta.
  rewrite fold_recent_elem, filter_length_pos. split.
  - intros [H|(d & Hd & Hc & Hf)]; [by apply not_elem_of_empty in H|].
    exists d. split; [done|].
    rewrite (proj2 (Z.leb_le _ _) Hc), Hf. apply String.eqb_refl.
  - intros (d & Hd & [Hc Hf]%andb_true_iff). right. exists d.
    split; [done|]. split; [by apply Z.leb_le|by apply String.eqb_eq].
Qed.

(** [mark_as_processed] writes under its own id and nowhere else: under
    the marked id stands the record just written, under every other id
    the record that was there, and no id is added.  A record goes away
    only when the call starts a cleanup and the record is older than the
    cutoff. *)
Theorem mark_as_processed_frame
    (self : EmailTracker.t) (now now_cleanup : Z) (email_id : string)
    (data : gmap string string) (sent : bool) (other : string) :
  let after := mark_as_processed self now now_cleanup email_id data sent in
  let gone (r : LedgerRecord) :=
    cleanup_due self now && expired self now_cleanup r in
  get_emails after !! email_id
  = (if gone (written_record now data sent) then None
     else Some (written_record now data sent))
  /\ (other <> email_id ->
      get_emails after !! other
      = match get_emails self !! other with
        | Some r => if gone r then None else Some r
        | None => None
        end).
Proof.
  intros after gone. unfold after, gone, expired. split.
  - by rewrite mark_lookup, lookup_insert_eq.
  - intros Hne. by rewrite mark_lookup, lookup_insert_ne.
Qed.

Lemma mark_as_processed_frame_witness :
  let self :=
    {| history_file := "processed_emails.json";
       max_history_days := 7;
       processed_emails :=
         {| emails := Some {[ "m1" := written_record 0 {[ "from" := "a@b.com" ]} true ]};
            last_cleanup := Some 0%Z |} |} in
  let after :=
    mark_as_processed self (2 * hour) (2 * hour) "m2" {[ "from" := "c@d.com" ]} false in
  get_emails after !! "m1" = get_emails self !! "m1"
  /\ is_processed after "m2" = true.
Proof.
  intros self after. split; [|vm_compute; reflexivity].
  unfold after.
  rewrite (proj2 (mark_as_processed_frame self (2 * hour) (2 * hour) "m2"
                    {[ "from" := "c@d.com" ]} false "m1")); [|done].
  vm_compute. reflexivity.
Defined.

Lemma cleanup_nothing_expired self now :
  (forall i r, get_emails self !! i = Some r -> expired self now r = false) ->
  _cleanup_old_entries self now = self.
Proof.
  intros H. unfold _cleanup_old_entries. cbv zeta.
  assert (List.filter
            (fun '(email_id, data) =>
               (processed_at data <? now - max_history_days self * day)%Z)
            (map_to_list (get_emails self)) = []) as ->.
  { apply filter_all_false. intros [i r] Hin.
    apply list_elem_of_In, elem_of_map_to_list in Hin. exact (H i r Hin). }
  cbn [fmap list_fmap fold_left].
  destruct self as [hf mhd [[m|] lc]]; reflexivity.
Qed.

(** A cleanup stamps [last_cleanup] only when it removes something.  When
    a record is older than the cutoff the stamp is the instant of the
    cleanup, so no call before a day has passed starts another; when none
    is, the tracker is left exactly as it was, stamp included. *)
Theorem cleanup_stamps_only_when_removing (self : EmailTracker.t) (now : Z) :
  ((exists i r, get_emails self !! i = Some r /\ expired self now r = true) ->
     last_cleanup (processed_emails (_cleanup_old_entries self now)) = Some now
     /\ forall later, (later < now + day)%Z ->
          cleanup_due (_cleanup_old_entries self now) later = false)
  /\ ((forall i r, get_emails self !! i = Some r -> expired self now r = false) ->
        _cleanup_old_entries self now = self).
Proof.
  split; [|apply cleanup_nothing_expired].
  intros (i & r & Hr & He).
  assert (last_cleanup (processed_emails (_cleanup_old_entries self now))
          = Some now) as Hs.
  { unfold _cleanup_old_entries. cbv zeta.
    destruct (List.filter _ _) as [|x l] eqn:E.
    - exfalso.
      assert (In (i, r) (List.filter
                (fun '(email_id, data) =>
                   (processed_at data <? now - max_history_days self * day)%Z)
                (map_to_list (get_emails self)))) as Hin.
      { apply filter_In. split; [|exact He].
        by apply list_elem_of_In, elem_of_map_to_list. }
      by rewrite E in Hin.
    - reflexivity. }
  split; [done|]. intros later Hl. unfold cleanup_due. rewrite Hs.
  cbn [default]. unfold id. apply Z.leb_gt.
  apply Z.div_lt_upper_bound; unfold day in *; lia.
Qed.

Lemma cleanup_stamps_only_when_removing_witness :
  let self :=
    {| history_file := "processed_emails.json";
       max_history_days := 7;
       processed_emails :=
         {| emails := Some {[ "m1" := written_record 0 {[ "from" := "a@b.com" ]} true ]};
            last_cleanup := Some 0%Z |} |} in
  _cleanup_old_entries self (3 * day) = self
  /\ last_cleanup (processed_emails (_cleanup_old_entries self (8 * day)))
     = Some (8 * day)%Z.
Proof.
  intros self. split.
  - apply (proj2 (cleanup_stamps_only_when_removing self (3 * day))).
    intros i r Hr.
    destruct (decide (i = "m1")) as [->|Hne].
    + vm_compute in Hr. injection Hr as <-. vm_compute. reflexivity.
    + exfalso. unfold get_emails, self in Hr. cbn in Hr.
      rewrite lookup_singleton_ne in Hr; done.
  - apply (proj1 (cleanup_stamps_only_when_removing self (8 * day))).
    exists "m1", (written_record 0 {[ "from" := "a@b.com" ]} true).
    split; vm_compute; reflexivity.
Defined.

(** Cleaning twice at one instant is cleaning once, and after a cleanup a
    later one leaves the records a single cleanup at the later instant
    would leave. *)
Theorem cleanup_idempotent (self : EmailTracker.t) (now later : Z) :
  _cleanup_old_entries (_cleanup_old_entries self now) now
  = _cleanup_old_entries self now
  /\ ((now <= later)%Z ->
      get_emails (_cleanup_old_entries (_cleanup_old_entries self now) later)
      = get_emails (_cleanup_old_entries self later)).
Proof.
  split.
  - apply cleanup_nothing_expired. intros i r. rewrite cleanup_lookup.
    unfold expired, cutoff_date. rewrite max_history_days_cleanup.
    destruct (get_emails self !! i) as [r'|]; [|done].
    destruct (processed_at r' <? _)%Z eqn:E; [done|]. by intros [= <-].
  - intros Hle. apply map_eq. intros i. rewrite !cleanup_lookup.
    unfold cutoff_date. rewrite max_history_days_cleanup.
    destruct (get_emails self !! i) as [r|]; [|done].
    destruct (processed_at r <? now - _)%Z eqn:E1; [|done].
    apply Z.ltb_lt in E1. rewrite (proj2 (Z.ltb_lt _ _)); [done|lia].
Qed.

Lemma cleanup_idempotent_witness :
  let self :=
    {| history_file := "processed_emails.json";
       max_history_days := 7;
       processed_emails :=
         {| emails := Some {[ "m1" := written_record 0 {[ "from" := "a@b.com" ]} true;
                              "m2" := written_record (5 * day) ∅ false ]};
            last_cleanup := Some 0%Z |} |} in
  get_emails (_cleanup_old_entries (_cleanup_old_entries self (8 * day)) (13 * day))
  = get_emails (_cleanup_old_entries self (13 * day)).
Proof.
  intros self.
  apply (proj2 (cleanup_idempotent self (8 * day) (13 * day))).
  vm_compute. discriminate.
Defined.

Lemma mark_without_cleanup self now nc i d s :
  cleanup_due self now = false ->
  get_emails (mark_as_processed self now nc i d s)
  = <[i := written_record now d s]> (get_emails self).
Proof.
  intros Hdue. apply map_eq. intros j. rewrite mark_lookup, Hdue.
  cbn [andb]. by destruct (_ !! j).
Qed.

Lemma filter_length_cons {A} (f : A -> bool) x (l : list A) :
  length (List.filter f (x :: l))
  = ((if f x then 1 else 0) + length (List.filter f l))%nat.
Proof. simpl. by destruct (f x). Qed.

(** Marking an e-mail under a new id, in a call that starts no cleanup,
    raises the count of its sender by one when the record falls in the
    window, and leaves every other count as it was. *)
Theorem mark_then_count
    (self : EmailTracker.t) (now now_cleanup : Z) (email_id : string)
    (data : gmap string string) (sent : bool)
    (at_count hours : Z) (sender : string) :
  get_emails self !! email_id = None ->
  cleanup_due self now = false ->
  count_sender_emails
    (mark_as_processed self now now_cleanup email_id data sent)
    at_count sender hours
  = ((if counted at_count hours sender (written_record now data sent)
      then 1 else 0)
     + count_sender_emails self at_count sender hours)%nat.
Proof.
  intros Hnew Hdue. rewrite !count_sender_emails_counted.
  rewrite (mark_without_cleanup _ _ _ _ _ _ Hdue).
  rewrite (filter_length_perm _ _ _ (map_to_list_insert _ _ _ Hnew)).
  exact (filter_length_cons
           (fun entry : string * LedgerRecord =>
              counted at_count hours sender (snd entry))
           (email_id, written_record now data sent) _).
Qed.

Lemma mark_then_count_witness :
  let self :=
    {| history_file := "processed_emails.json";
       max_history_days := 7;
       processed_emails := {| emails := None; last_cleanup := Some 0%Z |} |} in
  count_sender_emails
    (mark_as_processed self hour hour "m1" {[ "from" := "A@b.com" ]} true)
    (2 * hour) "a@B.com" 24
  = 1%nat.
Proof.
  intros self.
  rewrite (mark_then_count self hour hour "m1" {[ "from" := "A@b.com" ]} true
             (2 * hour) 24 "a@B.com");
    vm_compute; reflexivity.
Defined.

End TrackerMore.

Section ParseFacts.
Import Text EmailProcessor.

Lemma parse_from e :
  (parse_email_for_response e).1 !! "from" = Some (get e "from" "").
Proof.
  unfold parse_email_for_response. cbv zeta.
  match goal with |- context [_categorize_email ?x] => set (m := x) end.
  assert (m !! "from" = Some (get e "from" "")) as Hm.
  { subst m. destruct (_extract_sender_name _) as [[|c name]|];
      rewrite !lookup_insert_ne by done; apply lookup_insert_eq. }
  clearbody m. destruct (_categorize_email m) as [category keywords].
  cbn [fst]. by rewrite !lookup_insert_ne by done.
Qed.

Lemma _categorize_email_reads m e :
  get m "subject" "" = get e "subject" "" ->
  get m "body" "" = get e "body" "" ->
  _categorize_email m = _categorize_email e.
Proof. intros Hs Hb. unfold _categorize_email. by rewrite Hs, Hb. Qed.

Lemma _analyze_sentiment_reads m e :
  get m "subject" "" = get e "subject" "" ->
  get m "body" "" = get e "body" "" ->
  _analyze_sentiment m = _analyze_sentiment e.
Proof. intros Hs Hb. unfold _analyze_sentiment. by rewrite Hs, Hb. Qed.

(** [parse_email_for_response] copies the seven fields of the fetched
    record, an absent one as the empty string, and classifies the e-mail
    as the three classifiers classify the fetched record itself; the
    sender's name is stored when one is found and is not empty. *)
Theorem parse_email_for_response_fields (e : gmap string string) :
  let parsed := (parse_email_for_response e).1 in
  let category := (_categorize_email e).1 in
  let sentiment := _analyze_sentiment e in
  Forall (fun key => parsed !! key = Some (get e key ""))
    [ "from"; "to"; "subject"; "body"; "date"; "message_id"; "references" ]
  /\ parsed !! "category" = Some category
  /\ (parse_email_for_response e).2 = (_categorize_email e).2
  /\ parsed !! "sentiment" = Some sentiment
  /\ parsed !! "priority" = Some (_determine_priority e category sentiment)
  /\ parsed !! "sender_name"
     = match _extract_sender_name (get e "from" "") with
       | Some (String c name) => Some (String c name)
       | _ => None
       end.
Proof.
  unfold parse_email_for_response. cbv zeta.
  match goal with |- context [_categorize_email ?x] => set (m := x) end.
  set (found := _extract_sender_name _) in *.
  assert (forall key,
            In key [ "from"; "to"; "subject"; "body"; "date"; "message_id";
                     "references" ] ->
            m !! key = Some (get e key "")) as Hm.
  { intros key Hkey. subst m.
    assert (key <> "sender_name") as Hne
      by (intros ->; cbn in Hkey; intuition discriminate).
    destruct found as [[|c name]|];
      rewrite ?(lookup_insert_ne _ "sender_name") by done;
      cbn [In] in Hkey;
      repeat (destruct Hkey as [<-|Hkey];
              [by rewrite ?lookup_insert_ne by done; rewrite lookup_insert_eq|]);
      done. }
  assert (m !! "sender_name"
          = match found with
            | Some (String c name) => Some (String c name)
            | _ => None
            end) as Hname.
  { subst m. destruct found as [[|c name]|];
      rewrite ?lookup_insert_eq; try done;
      by rewrite !lookup_insert_ne by done. }
  assert (get m "subject" "" = get e "subject" "") as Hs
    by (unfold get at 1; rewrite Hm; [done|cbn; tauto]).
  assert (get m "body" "" = get e "body" "") as Hb
    by (unfold get at 1; rewrite Hm; [done|cbn; tauto]).
  rewrite (_categorize_email_reads m e Hs Hb).
  clearbody m found.
  destruct (_categorize_email e) as [category keywords]. cbn [fst snd].
  assert (_analyze_sentiment (<["category":=category]> m)
          = _analyze_sentiment e) as ->.
  { apply _analyze_sentiment_reads; unfold get at 1;
      by rewrite lookup_insert_ne by done. }
  repeat apply conj.
  - repeat (apply Forall_cons; split;
            [rewrite !lookup_insert_ne by done; apply Hm; cbn; tauto|]).
    apply Forall_nil_2.
  - by rewrite !lookup_insert_ne by done; rewrite lookup_insert_eq.
  - done.
  - by rewrite !lookup_insert_ne by done; rewrite lookup_insert_eq.
  - by rewrite lookup_insert_eq.
  - rewrite !lookup_insert_ne by done. exact Hname.
Qed.

End ParseFacts.

Section MainMore.
Import Text EmailFilter EmailProcessor EmailTracker EmailAutomationSystem.

Lemma lower_String c s : lower (String c s) = String (lower_char c) (lower s).
Proof. reflexivity. Qed.

Lemma reply_subject_stable original_subject :
  startswith (lower (reply_subject original_subject)) "re:" = true.
Proof.
  unfold reply_subject.
  destruct (startswith (lower original_subject) "re:") eqn:E; [exact E|].
  change ("Re: " +:+ original_subject)
    with (String "R" (String "e" (String ":" (String " " original_subject)))).
  rewrite !lower_String. reflexivity.
Qed.

(** The subject of a reply starts with [re:], letter case apart, and
    building the subject of a reply from the subject of a reply changes
    nothing: the prefix is never doubled. *)
Theorem reply_subject_never_doubles (original_subject : string) :
  startswith (lower (reply_subject original_subject)) "re:" = true
  /\ reply_subject (reply_subject original_subject)
     = reply_subject original_subject.
Proof.
  split; [apply reply_subject_stable|].
  unfold reply_subject at 1. by rewrite reply_subject_stable.
Qed.

(** Once [mark_as_processed] has written an e-mail into the ledger, and
    the call has not purged the record at once, [should_process_email]
    refuses every record with that id as already processed, whatever the
    filter and the rate limit would say. *)
Theorem marked_email_is_refused
    (tracker : EmailTracker.t) (cfg : Config) (now now_cleanup later : Z)
    (email_id : string) (data : gmap string string) (sent : bool)
    (e : gmap string string) :
  e !! "id" = Some email_id ->
  cleanup_due tracker now
  && expired tracker now_cleanup (written_record now data sent) = false ->
  should_process_email
    {| email_tracker :=
         mark_as_processed tracker now now_cleanup email_id data sent;
       config := cfg |}
    later e
  = Some (false, Already_processed).
Proof.
  intros Hid Hkept. unfold should_process_email. cbv zeta. rewrite Hid.
  cbn [email_tracker]. unfold is_processed.
  rewrite mark_lookup, lookup_insert_eq.
  unfold expired in Hkept. rewrite Hkept.
  rewrite bool_decide_eq_true_2; [reflexivity|by eexists].
Qed.

Lemma marked_email_is_refused_witness :
  let tracker :=
    {| history_file := "processed_emails.json";
       max_history_days := 7;
       processed_emails := {| emails := None; last_cleanup := Some 0%Z |} |} in
  let e : gmap string string :=
    <["id" := "m1"]> (<["from" := "ann@example.com"]> ∅) in
  should_process_email
    {| email_tracker := mark_as_processed tracker hour hour "m1" e true;
       config := default_config |}
    (2 * hour) e
  = Some (false, Already_processed).
Proof.
  intros tracker e.
  apply (marked_email_is_refused tracker default_config hour hour (2 * hour)
           "m1" e true e);
    vm_compute; reflexivity.
Defined.

Section ProcessFacts.

Local Ltac counters :=
  cbn [result stats_after send_calls List.filter length count_error errors
       EmailAutomationSystem.responses_sent];
  split; lia.
Variable generate_response : gmap string string -> string -> outcome string.
Variable send_email : Reply -> bool.

(** A reply is sent at most once in a call, and only for an e-mail that
    [should_process_email] accepts and that is not categorised as spam;
    it goes to the sender of the e-mail, carries the text the model
    returned, which is not empty, and its subject starts with [re:],
    letter case apart. *)
Theorem reply_only_when_accepted
    (self : EmailAutomationSystem.t) (stats : Statistics)
    (now now_mark now_cleanup : Z) (e : gmap string string) (r : Run)
    (reply : Reply) :
  process_single_email generate_response send_email self stats now now_mark
    now_cleanup e = Some r ->
  In reply (send_calls r) ->
  send_calls r = [reply]
  /\ should_process_email self now e = Some (true, Ok)
  /\ get (parsed e) "category" "unknown" <> "spam"
  /\ to_address reply = get e "from" ""
  /\ generated generate_response e = Returned (body reply)
  /\ body reply <> ""
  /\ startswith (lower (EmailAutomationSystem.subject reply)) "re:" = true.
Proof.
  unfold process_single_email, generated, parsed.
  destruct (e !! "id") as [i|]; [|done]. cbn [mbind option_bind].
  intros [= <-].
  destruct (e !! "subject"), (e !! "from"); try done.
  destruct (should_process_email self now e) as [[[] why]|] eqn:Hsp;
    [|intros []..].
  pose proof (parse_from e) as Hfrom.
  destruct (parse_email_for_response e) as [p kw]. cbn [fst] in *.
  destruct (String.eqb _ "spam") eqn:Hspam; [done|].
  destruct (generate_response _ _) as [[|c response]|] eqn:Hgen; try done.
  rewrite Hfrom. cbn [send_calls In]. intros [<-|[]].
  cbn [to_address body EmailAutomationSystem.subject].
  repeat apply conj; try done.
  - unfold should_process_email in Hsp. cbv zeta in Hsp.
    destruct (match e !! "id" with Some _ => _ | None => _ end); [done|].
    destruct (should_skip_email _ _) as [[[] ?]|]; try done.
    cbn [mbind option_bind] in Hsp.
    destruct (_ <=? _)%Z; [done|]. by injection Hsp as <-.
  - intros Heq. by rewrite Heq in Hspam.
  - apply reply_subject_stable.
Qed.

(** Unless the model returns an empty text, in which case the ledger is
    left as it was and the call returns [False], a call that starts no
    cleanup leaves under the id of the e-mail a record stamped with the
    instant of the call and naming its sender, whose [response_sent] flag
    says whether a reply was sent and accepted by the server; the records
    under the other ids are untouched. *)
Theorem process_marks_the_ledger
    (self : EmailAutomationSystem.t) (stats : Statistics)
    (now now_mark now_cleanup : Z) (e : gmap string string)
    (email_id : string) (r : Run) :
  e !! "id" = Some email_id ->
  cleanup_due (email_tracker self) now_mark = false ->
  process_single_email generate_response send_email self stats now now_mark
    now_cleanup e = Some r ->
  (generated generate_response e = Returned ""
   /\ tracker_after r = email_tracker self
   /\ result r = false)
  \/ (exists record,
        get_emails (tracker_after r) !! email_id = Some record
        /\ processed_at record = now_mark
        /\ EmailTracker.from record = get e "from" ""
        /\ response_sent record = existsb send_email (send_calls r)
        /\ forall other, other <> email_id ->
             get_emails (tracker_after r) !! other
             = get_emails (email_tracker self) !! other).
Proof.
  unfold process_single_email, generated, parsed.
  intros -> Hdue. cbn [mbind option_bind]. intros [= <-].
  assert (forall data sent,
            get (data : gmap string string) "from" "" = get e "from" "" ->
            exists record,
              get_emails (mark_as_processed (email_tracker self) now_mark
                            now_cleanup email_id data sent) !! email_id
              = Some record
              /\ processed_at record = now_mark
              /\ EmailTracker.from record = get e "from" ""
              /\ response_sent record = sent
              /\ forall other, other <> email_id ->
                   get_emails (mark_as_processed (email_tracker self) now_mark
                                 now_cleanup email_id data sent) !! other
                   = get_emails (email_tracker self) !! other) as Hmark.
  { intros data sent Hd. rewrite (mark_without_cleanup _ _ _ _ _ _ Hdue).
    exists (written_record now_mark data sent).
    rewrite lookup_insert_eq. repeat apply conj; try done.
    intros other Hne. by rewrite lookup_insert_ne. }
  destruct (e !! "subject"), (e !! "from") eqn:Hf;
    try (right; cbn [tracker_after send_calls existsb];
         by apply Hmark).
  destruct (should_process_email self now e) as [[[] why]|];
    try (right; cbn [tracker_after send_calls existsb];
         by apply Hmark).
  pose proof (parse_from e) as Hfrom.
  destruct (parse_email_for_response e) as [p kw]. cbn [fst] in *.
  assert (get p "from" "" = get e "from" "") as Hp
    by (unfold get at 1; by rewrite Hfrom).
  destruct (String.eqb _ "spam");
    [right; cbn [tracker_after send_calls existsb]; by apply Hmark|].
  destruct (generate_response _ _) as [[|c response]|];
    [by left
    | |right; cbn [tracker_after send_calls existsb]; by apply Hmark].
  rewrite Hfrom. right. cbn [tracker_after send_calls existsb].
  rewrite orb_false_r. by apply Hmark.
Qed.

(** The value returned and the counters agree: [errors] goes up by one
    exactly when the call returns [False], and [responses_sent] goes up
    by one exactly when a reply was sent and accepted by the server. *)
Theorem process_counts
    (self : EmailAutomationSystem.t) (stats : Statistics)
    (now now_mark now_cleanup : Z) (e : gmap string string) (r : Run) :
  process_single_email generate_response send_email self stats now now_mark
    now_cleanup e = Some r ->
  errors (stats_after r)
  = (errors stats + (if result r then 0 else 1))%nat
  /\ EmailAutomationSystem.responses_sent (stats_after r)
     = (EmailAutomationSystem.responses_sent stats
        + length (List.filter send_email (send_calls r)))%nat.
Proof.
  unfold process_single_email.
  destruct (e !! "id") as [i|]; [|done]. cbn [mbind option_bind].
  intros [= <-].
  destruct (e !! "subject"), (e !! "from");
    try (counters).
  destruct (should_process_email self now e) as [[[] why]|];
    try (counters).
  destruct (parse_email_for_response e) as [p kw].
  destruct (String.eqb _ "spam"); [counters|].
  destruct (generate_response _ _) as [[|c response]|];
    try (counters).
  destruct (p !! "from"); [|counters].
  cbn [result stats_after send_calls List.filter].
  destruct (send_email _); counters.
Qed.

(** A call on an e-mail whose id is already in the ledger sends nothing
    and counts no response; when it starts no cleanup it writes the
    record of that id anew, with the [response_sent] flag off. *)
Theorem process_again_sends_nothing
    (self : EmailAutomationSystem.t) (stats : Statistics)
    (now now_mark now_cleanup : Z) (e : gmap string string)
    (email_id : string) (r : Run) :
  e !! "id" = Some email_id ->
  is_processed (email_tracker self) email_id = true ->
  process_single_email generate_response send_email self stats now now_mark
    now_cleanup e = Some r ->
  send_calls r = []
  /\ EmailAutomationSystem.responses_sent (stats_after r)
     = EmailAutomationSystem.responses_sent stats
  /\ (cleanup_due (email_tracker self) now_mark = false ->
      get_emails (tracker_after r) !! email_id
      = Some (written_record now_mark e false)).
Proof.
  unfold process_single_email.
  intros Hid Hin. rewrite Hid. cbn [mbind option_bind]. intros [= <-].
  assert (should_process_email self now e = Some (false, Already_processed))
    as ->.
  { unfold should_process_email. cbv zeta. by rewrite Hid, Hin. }
  destruct (e !! "subject"), (e !! "from");
    (repeat apply conj; [done|done|]);
    intros Hdue; cbn [tracker_after];
    by rewrite (mark_without_cleanup _ _ _ _ _ _ Hdue), lookup_insert_eq.
Qed.

End ProcessFacts.

Lemma reply_only_when_accepted_witness :
  exists r reply,
    process_single_email sample_model sample_server sample_system
      sample_statistics hour hour hour sample_email = Some r
    /\ send_calls r = [reply]
    /\ to_address reply = "Ann <ann@example.com>"
    /\ EmailAutomationSystem.subject reply = "Re: Question about my order".
Proof.
  eexists _, _. split; [vm_compute; reflexivity|].
  split; [reflexivity|].
  split; [|reflexivity].
  refine (proj1 (proj2 (proj2 (proj2
            (reply_only_when_accepted sample_model sample_server
               sample_system sample_statistics hour hour hour sample_email
               _ _ _ _))))).
  - vm_compute; reflexivity.
  - left; reflexivity.
Defined.

Lemma process_marks_the_ledger_witness :
  exists r,
    process_single_email sample_model sample_server sample_system
      sample_statistics hour hour hour sample_email = Some r
    /\ is_processed (tracker_after r) "m1" = true.
Proof.
  eexists. split; [vm_compute; reflexivity|].
  destruct (process_marks_the_ledger sample_model sample_server
              sample_system sample_statistics hour hour hour sample_email
              "m1" _ ltac:(vm_compute; reflexivity)
              ltac:(vm_compute; reflexivity)
              ltac:(vm_compute; reflexivity))
    as [(Hempty & _)|(record & Hrecord & _)].
  - vm_compute in Hempty. discriminate.
  - unfold is_processed. rewrite Hrecord.
    apply bool_decide_eq_true_2. by eexists.
Defined.

Lemma process_counts_witness :
  exists r,
    process_single_email sample_model sample_server sample_system
      sample_statistics hour hour hour sample_email = Some r
    /\ errors (stats_after r) = 0%nat
    /\ EmailAutomationSystem.responses_sent (stats_after r) = 1%nat.
Proof.
  eexists. split; [vm_compute; reflexivity|].
  exact (process_counts sample_model sample_server sample_system
           sample_statistics hour hour hour sample_email _
           ltac:(vm_compute; reflexivity)).
Defined.

Lemma process_again_sends_nothing_witness :
  let again :=
    {| email_tracker :=
         mark_as_processed (email_tracker sample_system) hour hour "m1"
           sample_email true;
       config := default_config |} in
  exists r,
    process_single_email sample_model sample_server again
      sample_statistics (2 * hour) (2 * hour) (2 * hour) sample_email
    = Some r
    /\ send_calls r = []
    /\ option_map response_sent (get_emails (tracker_after r) !! "m1")
       = Some false.
Proof.
  intros again. eexists. split; [vm_compute; reflexivity|].
  destruct (process_again_sends_nothing sample_model sample_server again
              sample_statistics (2 * hour) (2 * hour) (2 * hour)
              sample_email "m1" _ ltac:(vm_compute; reflexivity)
              ltac:(vm_compute; reflexivity)
              ltac:(vm_compute; reflexivity))
    as (Hsent & _ & Hrecord).
  split; [exact Hsent|].
  rewrite Hrecord; [reflexivity|vm_compute; reflexivity].
Defined.

End MainMore.

Section CleaningFacts.
Import Text EmailProcessor.

Lemma split_lines_not_nil s : split_lines s <> [].
Proof.
  destruct s as [|c s]; [done|]. cbn [split_lines].
  destruct (decide _); [done|]. by destruct (split_lines s).
Qed.

(** Splitting at the newlines and joining with newlines gives the string
    back. *)
Lemma join_split_lines s : join newline (split_lines s) = s.
Proof.
  induction s as [|c s IH]; [done|]. cbn [split_lines].
  destruct (decide (c = "010"%char)) as [->|Hc].
  - pose proof (split_lines_not_nil s) as Hne.
    destruct (split_lines s) as [|line lines]; [done|].
    change (join newline ("" :: line :: lines))
      with ("" +:+ newline +:+ join newline (line :: lines)).
    by rewrite IH.
  - pose proof (split_lines_not_nil s) as Hne.
    destruct (split_lines s) as [|line lines]; [done|].
    destruct lines as [|line' lines].
    + cbn [join] in *. by rewrite IH.
    + change (join newline (String c line :: line' :: lines))
        with (String c line +:+ newline +:+ join newline (line' :: lines)).
      change (join newline (line :: line' :: lines))
        with (line +:+ newline +:+ join newline (line' :: lines)) in IH.
      by rewrite app_String, IH.
Qed.

Lemma clean_lines_plain lines :
  Forall (fun line => header_like (strip line) = false) lines ->
  clean_lines false lines = lines.
Proof.
  induction 1 as [|line lines Hline _ IH]; [done|].
  cbn [clean_lines]. unfold header_like in Hline. rewrite Hline.
  cbn [andb]. by rewrite IH.
Qed.

(** The loop of [_clean_email_body] keeps the lines in their order, drops
    every line that starts with a header word once stripped, and keeps
    every line that neither does so nor is blank. *)
Theorem clean_lines_keeps_content (skip_next_empty : bool)
    (lines : list string) :
  sublist (clean_lines skip_next_empty lines) lines
  /\ Forall (fun line => header_like (strip line) = false)
       (clean_lines skip_next_empty lines)
  /\ forall line,
       In line lines -> header_like (strip line) = false ->
       blank line = false ->
       In line (clean_lines skip_next_empty lines).
Proof.
  revert skip_next_empty.
  induction lines as [|l lines IH]; intros skip_next_empty.
  - repeat split; [constructor|constructor|by intros ? []].
  - cbn [clean_lines]. fold (header_like (strip l)).
    destruct (header_like (strip l)) eqn:Hh.
    + destruct (IH true) as (Hs & Hf & Hk).
      repeat split; [by constructor|done|].
      intros line [<-|Hin] Hline Hb; [congruence|by apply Hk].
    + fold (blank l). destruct (skip_next_empty && blank l) eqn:Hb.
      * destruct (IH false) as (Hs & Hf & Hk).
        repeat split; [by constructor|done|].
        intros line [<-|Hin] Hline Hbl; [|by apply Hk].
        apply andb_true_iff in Hb. destruct Hb. congruence.
      * destruct (IH false) as (Hs & Hf & Hk).
        repeat split; [by constructor|by constructor|].
        intros line [<-|Hin] Hline Hbl; [by left|right; by apply Hk].
Qed.

Lemma clean_lines_keeps_content_witness :
  In "Dear Ann," (clean_lines false [ "Subject: Re: order"; ""; "Dear Ann," ]).
Proof.
  apply (proj2 (proj2 (clean_lines_keeps_content false
                         [ "Subject: Re: order"; ""; "Dear Ann," ])));
    [right; right; left; reflexivity|vm_compute; reflexivity
    |vm_compute; reflexivity].
Defined.

(** A text none of whose lines starts with a header word goes through
    [_clean_email_body] with nothing lost but the white space at its two
    ends; a text of white space only is returned as it is. *)
Theorem clean_email_body_plain (body : string) :
  Forall (fun line => header_like (strip line) = false) (split_lines body) ->
  _clean_email_body body = (if blank body then body else strip body).
Proof.
  intros Hplain. unfold _clean_email_body, blank.
  destruct body as [|c body]; [done|]. cbv zeta.
  rewrite (clean_lines_plain _ Hplain), join_split_lines.
  destruct (strip (String c body)) eqn:E.
  - by rewrite bool_decide_eq_true_2.
  - by rewrite bool_decide_eq_false_2.
Qed.

Lemma clean_email_body_plain_witness :
  _clean_email_body "  Dear Ann, thank you.  " = "Dear Ann, thank you.".
Proof.
  rewrite (clean_email_body_plain "  Dear Ann, thank you.  ").
  - vm_compute; reflexivity.
  - repeat constructor.
Defined.

Lemma clean_lines_headers skip_next_empty lines :
  Forall (fun line => header_like (strip line) = true) lines ->
  clean_lines skip_next_empty lines = [].
Proof.
  intros H. revert skip_next_empty.
  induction H as [|line lines Hline _ IH]; intros skip_next_empty; [done|].
  cbn [clean_lines]. unfold header_like in Hline. by rewrite Hline.
Qed.

(** A text all of whose lines start with a header word is not cleaned:
    since nothing would be left, [_clean_email_body] returns it as it
    is, header lines included. *)
Theorem clean_email_body_only_headers (body : string) :
  Forall (fun line => header_like (strip line) = true) (split_lines body) ->
  _clean_email_body body = body.
Proof.
  intros Hall. unfold _clean_email_body.
  destruct body as [|c body]; [done|]. cbv zeta.
  by rewrite (clean_lines_headers _ _ Hall).
Qed.

Lemma clean_email_body_only_headers_witness :
  _clean_email_body "Subject: Re: order" = "Subject: Re: order".
Proof.
  apply (clean_email_body_only_headers "Subject: Re: order").
  repeat constructor.
Defined.

End CleaningFacts.

Section SenderNameFacts.
Import Text EmailProcessor.

Lemma rstrip_cons c s :
  isspace c = false -> rstrip (String c s) = String c (rstrip s).
Proof. intros H. cbn [rstrip]. rewrite H. by destruct (rstrip s). Qed.

Lemma rstrip_rstrip s : rstrip (rstrip s) = rstrip s.
Proof.
  induction s as [|c s IH]; [done|]. cbn [rstrip].
  destruct (rstrip s) as [|d r] eqn:E.
  - destruct (isspace c) eqn:Hc; [done|]. cbn [rstrip]. by rewrite Hc.
  - change (rstrip (String c (String d r)))
      with (match rstrip (String d r) with
            | EmptyString =>
                if isspace c then EmptyString else String c EmptyString
            | r' => String c r'
            end).
    by rewrite IH.
Qed.

Lemma lstrip_cases s :
  lstrip s = EmptyString
  \/ exists c r, lstrip s = String c r /\ isspace c = false.
Proof.
  induction s as [|c s IH]; [by left|]. cbn [lstrip].
  destruct (isspace c) eqn:Hc; [exact IH|]. right. by exists c, s.
Qed.

(** Stripping a stripped string changes nothing. *)
Lemma strip_strip s : strip (strip s) = strip s.
Proof.
  unfold strip. destruct (lstrip_cases s) as [->|(c & r & -> & Hc)]; [done|].
  rewrite (rstrip_cons _ _ Hc). cbn [lstrip]. rewrite Hc.
  by rewrite <- (rstrip_cons _ _ Hc), rstrip_rstrip.
Qed.

Lemma has_char_lstrip c s : has_char c s = false -> has_char c (lstrip s) = false.
Proof.
  induction s as [|a s IH]; [done|]. cbn [lstrip has_char]. intros H.
  apply orb_false_iff in H. destruct H as [Ha Hs].
  destruct (isspace a); [by apply IH|]. cbn [has_char]. by rewrite Ha, Hs.
Qed.

Lemma has_char_rstrip c s : has_char c s = false -> has_char c (rstrip s) = false.
Proof.
  induction s as [|a s IH]; [done|]. cbn [rstrip has_char]. intros H.
  apply orb_false_iff in H. destruct H as [Ha Hs]. specialize (IH Hs).
  destruct (rstrip s) as [|d r].
  - destruct (isspace a); [done|]. cbn [has_char]. by rewrite Ha.
  - cbn [has_char] in *. by rewrite Ha, IH.
Qed.

Lemma has_char_strip c s : has_char c s = false -> has_char c (strip s) = false.
Proof. intros H. by apply has_char_rstrip, has_char_lstrip. Qed.

Lemma span_name_fst s :
  has_char quote (span_name s).1 = false
  /\ has_char "<" (span_name s).1 = false.
Proof.
  induction s as [|c s [IHq IHl]]; [done|]. cbn [span_name].
  destruct (decide (c = quote \/ c = "<"%char)) as [|Hc]; [done|].
  destruct (span_name s) as [name rest]. cbn [fst has_char] in *.
  rewrite IHq, IHl.
  destruct (decide (c = quote)), (decide (c = "<"%char)); tauto.
Qed.

(** What [_extract_sender_name] returns: only for an address with both
    angle brackets, and then a name without double quote and opening
    bracket and with no white space at its ends. *)
Theorem extract_sender_name_shape (from_address name : string) :
  _extract_sender_name from_address = Some name ->
  has_char "<" from_address = true
  /\ has_char ">" from_address = true
  /\ has_char quote name = false
  /\ has_char "<" name = false
  /\ strip name = name.
Proof.
  unfold _extract_sender_name.
  destruct (has_char "<" from_address) eqn:Hl; [|done].
  destruct (has_char ">" from_address) eqn:Hg; [|done]. cbn [andb].
  pose proof (span_name_fst (drop_quote from_address)) as [Hq Hb].
  destruct (span_name (drop_quote from_address)) as [group1 rest].
  cbn [fst] in *.
  destruct group1 as [|c group1]; [done|].
  destruct (lstrip (drop_quote rest)) as [|a tail]; [done|].
  destruct (decide (a = "<"%char)) as [->|Ha].
  - destruct (split_at_gt tail) as [[[|b inside] after]|]; try done.
    destruct (decide _); [|done]. intros [= <-].
    repeat apply conj; try done.
    + by apply has_char_strip.
    + by apply has_char_strip.
    + apply strip_strip.
  - intros H. exfalso. revert H.
    destruct a as [[] [] [] [] [] [] [] []]; try done.
Qed.

Lemma extract_sender_name_shape_witness :
  strip "Ann Lee" = "Ann Lee".
Proof.
  apply (extract_sender_name_shape "Ann Lee <ann@example.com>" "Ann Lee").
  vm_compute; reflexivity.
Defined.

Lemma has_char_here c s : has_char c (String c s) = true.
Proof. cbn [has_char]. by rewrite decide_True. Qed.

Lemma has_char_cons_r c a s :
  has_char c s = true -> has_char c (String a s) = true.
Proof. intros H. cbn [has_char]. rewrite H. apply orb_true_r. Qed.

Lemma has_char_app_r c a b :
  has_char c b = true -> has_char c (a +:+ b) = true.
Proof. intros H. rewrite has_char_app, H. apply orb_true_r. Qed.

Lemma app_empty_r s : s +:+ "" = s.
Proof. induction s as [|c s IH]; [done|]. by rewrite app_String, IH. Qed.

Lemma span_name_app a rest :
  has_char quote a = false -> has_char "<" a = false ->
  span_name (a +:+ rest) = (a +:+ (span_name rest).1, (span_name rest).2).
Proof.
  induction a as [|c a IH]; intros Hq Hb.
  - rewrite !app_empty. by destruct (span_name rest).
  - cbn [has_char] in Hq, Hb.
    apply orb_false_iff in Hq. apply orb_false_iff in Hb.
    destruct Hq as [Hq Hq'], Hb as [Hb Hb'].
    rewrite !app_String. cbn [span_name].
    destruct (decide (c = quote \/ c = "<"%char)) as [[->| ->]|_]; [done..|].
    by rewrite (IH Hq' Hb').
Qed.

Lemma split_at_gt_app inside after :
  has_char ">" inside = false ->
  split_at_gt (inside +:+ String ">" after) = Some (inside, after).
Proof.
  induction inside as [|c inside IH]; intros H; [done|].
  cbn [has_char] in H. apply orb_false_iff in H. destruct H as [Hc H].
  rewrite app_String. cbn [split_at_gt].
  destruct (decide (c = ">"%char)) as [->|_]; [done|].
  by rewrite (IH H).
Qed.

Lemma lstrip_app_space s :
  lstrip (s +:+ " ")
  = match lstrip s with
    | EmptyString => EmptyString
    | String c r => String c r +:+ " "
    end.
Proof.
  induction s as [|c s IH]; [done|]. rewrite app_String. cbn [lstrip].
  destruct (isspace c); [exact IH|]. by rewrite app_String.
Qed.

Lemma rstrip_app_space s : rstrip (s +:+ " ") = rstrip s.
Proof.
  induction s as [|c s IH]; [done|]. rewrite app_String. cbn [rstrip].
  by rewrite IH.
Qed.

Lemma strip_app_space s : strip (s +:+ " ") = strip s.
Proof.
  unfold strip. rewrite lstrip_app_space.
  destruct (lstrip s); [done|]. apply rstrip_app_space.
Qed.

(** The two usual forms of a sender are read back: from [name <address>]
    and from the form with the name in double quotes,
    [_extract_sender_name] returns the name without the white space at
    its ends. *)
Theorem extract_sender_name_round_trip (name address : string) :
  name <> EmptyString ->
  has_char quote name = false -> has_char "<" name = false ->
  address <> EmptyString -> has_char ">" address = false ->
  _extract_sender_name (name +:+ " <" +:+ address +:+ ">")
  = Some (strip name)
  /\ _extract_sender_name
       (String quote name +:+ String quote " <" +:+ address +:+ ">")
     = Some (strip name).
Proof.
  intros Hname Hq Hb Haddr Hg.
  assert (forall s, has_char "<" (s +:+ " <" +:+ address +:+ ">") = true)
    as Hlt.
  { intros s. rewrite has_char_app. apply orb_true_iff. by right. }
  assert (forall s, has_char ">" (s +:+ " <" +:+ address +:+ ">") = true)
    as Hgt.
  { intros s. rewrite !has_char_app. apply orb_true_iff. right.
    apply orb_true_iff. right. apply orb_true_iff. by right. }
  assert (split_at_gt (address +:+ ">") = Some (address, EmptyString)) as Hs
    by (by apply split_at_gt_app).
  destruct name as [|c name]; [done|]. destruct address as [|a address]; [done|].
  assert (c <> quote) as Hc.
  { intros ->. done. }
  split.
  - unfold _extract_sender_name. rewrite Hlt, Hgt. cbn [andb].
    rewrite app_String. cbn [drop_quote].
    destruct (decide (c = quote)) as [|_]; [done|].
    rewrite <- app_String.
    rewrite (span_name_app _ _ Hq Hb).
    change (span_name (" <" +:+ String a address +:+ ">"))
      with (" ", "<" +:+ String a address +:+ ">").
    cbn [fst snd]. rewrite app_String.
    change (lstrip (drop_quote ("<" +:+ String a address +:+ ">")))
      with (String "<" (String a address +:+ ">")).
    cbv beta iota. rewrite Hs. rewrite decide_True by (by left).
    by rewrite <- app_String, strip_app_space.
  - unfold _extract_sender_name.
    change (String quote (String c name) +:+ String quote " <"
              +:+ String a address +:+ ">")
      with (String quote
              (String c name
               +:+ String quote
                     (String " " (String "<" (String a address +:+ ">"))))).
    rewrite has_char_cons_r
      by (apply has_char_app_r; do 2 apply has_char_cons_r;
          apply has_char_here).
    rewrite has_char_cons_r
      by (apply has_char_app_r; do 3 apply has_char_cons_r;
          apply has_char_app_r, has_char_here).
    cbn [andb drop_quote]. rewrite decide_True by done.
    rewrite (span_name_app _ _ Hq Hb).
    cbn [span_name]. rewrite decide_True by (by left).
    cbn [fst snd drop_quote]. rewrite decide_True by done.
    rewrite app_empty_r.
    change (lstrip (String " " (String "<" (String a address +:+ ">"))))
      with (String "<" (String a address +:+ ">")).
    cbv beta iota. rewrite Hs. by rewrite decide_True by (by left).
Qed.

Lemma extract_sender_name_round_trip_witness :
  _extract_sender_name "Ann Lee <ann@example.com>" = Some "Ann Lee"
  /\ _extract_sender_name
       (String quote "Ann Lee" +:+ String quote " <" +:+ "ann@example.com"
        +:+ ">")
     = Some "Ann Lee".
Proof.
  apply (extract_sender_name_round_trip "Ann Lee" "ann@example.com");
    (done || (vm_compute; reflexivity)).
Defined.

End SenderNameFacts.

Section GeminiFacts.
Import Text GeminiEmailResponder.
Local Open Scope Q_scope.

(** Whatever the type of the e-mail, a configured temperature between 0
    and 1 gives a temperature between 0 and 1; for the technical types it
    is at least 0.1, for a complaint at least 0.3, for the creative types
    at most 0.9, whatever is configured. *)
Theorem temperature_stays_in_range (self : GeminiEmailResponder.t)
    (email_type : option string) :
  (0 <= temperature self <= 1 ->
   0 <= _get_temperature_for_type self email_type <= 1)
  /\ (type_in email_type
        ["product_support"; "billing_question"; "urgent_request"] = true ->
      1 # 10 <= _get_temperature_for_type self email_type)
  /\ (email_type = Some "complaint" ->
      3 # 10 <= _get_temperature_for_type self email_type)
  /\ (type_in email_type ["feature_request"; "general_feedback"] = true ->
      _get_temperature_for_type self email_type <= 9 # 10).
Proof.
  unfold _get_temperature_for_type.
  set (t := temperature self). clearbody t.
  repeat apply conj.
  - intros [H0 H1].
    destruct (type_in email_type [_; _; _]);
      [|destruct (type_in email_type [_]);
        [|destruct (type_in email_type [_; _])]];
      try (split; assumption).
    + destruct (Q.max_spec (1 # 10) (t - (3 # 10))) as [[? ->]|[? ->]]; lra.
    + destruct (Q.max_spec (3 # 10) (t - (1 # 10))) as [[? ->]|[? ->]]; lra.
    + destruct (Q.min_spec (9 # 10) (t + (1 # 10))) as [[? ->]|[? ->]]; lra.
  - intros ->. apply Q.le_max_l.
  - intros ->. cbn. apply Q.le_max_l.
  - intros H. destruct email_type as [ty|]; [|done].
    cbn [type_in existsb] in H. rewrite orb_false_r in H.
    apply orb_true_iff in H.
    destruct H as [H|H]; apply String.eqb_eq in H; subst ty;
      apply Q.le_min_l.
Qed.

Lemma temperature_stays_in_range_witness :
  let self :=
    {| temperature := 7 # 10; requests_count := 0; last_request_time := 0 |} in
  0 <= _get_temperature_for_type self (Some "complaint") <= 1.
Proof.
  intros self.
  apply (proj1 (temperature_stays_in_range self (Some "complaint"))).
  split; vm_compute; discriminate.
Defined.

Lemma temperature_technical self ty :
  type_in ty ["product_support"; "billing_question"; "urgent_request"] = true ->
  _get_temperature_for_type self ty
  = Qmax (1 # 10) (temperature self - (3 # 10)).
Proof. intros H. unfold _get_temperature_for_type. by rewrite H. Qed.

Lemma temperature_creative self ty :
  type_in ty ["feature_request"; "general_feedback"] = true ->
  _get_temperature_for_type self ty
  = Qmin (9 # 10) (temperature self + (1 # 10)).
Proof.
  intros H. destruct ty as [ty|]; [|done].
  cbn [type_in existsb] in H. rewrite orb_false_r in H.
  apply orb_true_iff in H.
  by destruct H as [H|H]; apply String.eqb_eq in H; subst ty.
Qed.

(** The technical types never get a higher temperature than a complaint.
    A complaint gets at most the configured temperature exactly when
    that is at least 0.3, and the creative types get at least the
    configured temperature exactly when that is at most 0.9. *)
Theorem temperature_order (self : GeminiEmailResponder.t)
    (technical creative : option string) :
  type_in technical
    ["product_support"; "billing_question"; "urgent_request"] = true ->
  type_in creative ["feature_request"; "general_feedback"] = true ->
  _get_temperature_for_type self technical
  <= _get_temperature_for_type self (Some "complaint")
  /\ (_get_temperature_for_type self (Some "complaint")
      <= _get_temperature_for_type self None
      <-> 3 # 10 <= temperature self)
  /\ (_get_temperature_for_type self None
      <= _get_temperature_for_type self creative
      <-> temperature self <= 9 # 10).
Proof.
  intros Htech Hcreative.
  rewrite (temperature_technical _ _ Htech),
    (temperature_creative _ _ Hcreative).
  change (_get_temperature_for_type self (Some "complaint"))
    with (Qmax (3 # 10) (temperature self - (1 # 10))).
  change (_get_temperature_for_type self None) with (temperature self).
  set (t := temperature self). clearbody t.
  destruct (Q.max_spec (1 # 10) (t - (3 # 10))) as [[? E1]|[? E1]];
    destruct (Q.max_spec (3 # 10) (t - (1 # 10))) as [[? E2]|[? E2]];
    destruct (Q.min_spec (9 # 10) (t + (1 # 10))) as [[? E3]|[? E3]];
    rewrite E1, E2, E3; repeat split; intros; lra.
Qed.

Lemma temperature_order_witness :
  let self :=
    {| temperature := 7 # 10; requests_count := 0; last_request_time := 0 |} in
  _get_temperature_for_type self (Some "billing_question")
  <= _get_temperature_for_type self (Some "complaint").
Proof.
  intros self.
  apply (proj1 (temperature_order self (Some "billing_question")
                  (Some "general_feedback") eq_refl eq_refl)).
Defined.

(** [_handle_rate_limiting] changes nothing but the counter, and leaves
    it below a positive limit.  It sleeps only when the counter has
    reached the limit; the counter is then reset, the sleep lasts at
    least one second and ends 61 seconds after the last request, and it
    lasts at most 61 seconds when the clock has not gone back. *)
Theorem rate_limiting_sleep (self self' : GeminiEmailResponder.t)
    (current_time : Q) (max_requests_per_minute : Z) (slept : option Q) :
  _handle_rate_limiting self current_time max_requests_per_minute
  = (self', slept) ->
  temperature self' = temperature self
  /\ last_request_time self' = last_request_time self
  /\ ((0 < max_requests_per_minute)%Z ->
      (requests_count self' < max_requests_per_minute)%Z)
  /\ forall wait_time,
       slept = Some wait_time ->
       (max_requests_per_minute <= requests_count self)%Z
       /\ requests_count self' = 0%Z
       /\ 1 <= wait_time
       /\ current_time + wait_time == last_request_time self + 61
       /\ (last_request_time self <= current_time -> wait_time <= 61).
Proof.
  unfold _handle_rate_limiting. cbv zeta.
  set (last := last_request_time self).
  destruct (Qle_bool (current_time - last) 60) eqn:He; cbn [negb].
  - apply Qle_bool_iff in He.
    destruct (max_requests_per_minute <=? requests_count self)%Z eqn:Hm.
    + apply Z.leb_le in Hm. intros [= <- <-].
      cbn [temperature last_request_time requests_count].
      repeat apply conj; try done.
      intros wait_time [= <-]. repeat apply conj; try done; try lra.
    + apply Z.leb_gt in Hm. intros [= <- <-].
      repeat apply conj; try done.
  - intros [= <- <-]. repeat apply conj; done.
Qed.

Lemma rate_limiting_sleep_witness :
  let self :=
    {| temperature := 7 # 10; requests_count := 60;
       last_request_time := 100 |} in
  exists self' wait_time,
    _handle_rate_limiting self 130 60 = (self', Some wait_time)
    /\ requests_count self' = 0%Z
    /\ 1 <= wait_time.
Proof.
  intros self. eexists _, _. split; [reflexivity|].
  destruct (rate_limiting_sleep self _ 130 60 _ eq_refl)
    as (_ & _ & _ & H).
  destruct (H _ eq_refl) as (_ & H0 & H1 & _).
  split; [exact H0|exact H1].
Defined.

Lemma clean_response_lines_plain lines :
  Forall (fun line => header_like line = false) lines ->
  clean_lines false lines = lines.
Proof.
  induction 1 as [|line lines Hline _ IH]; [done|].
  cbn [clean_lines].
  change (existsb (startswith line) header_prefixes) with (header_like line).
  rewrite Hline. cbn [andb]. by rewrite IH.
Qed.

(** A text none of whose lines starts with a header word goes through
    [_clean_response] with nothing lost but the white space at its two
    ends. *)
Theorem clean_response_plain (response_text : string) :
  Forall (fun line => header_like line = false) (split_lines response_text) ->
  _clean_response response_text = strip response_text.
Proof.
  intros Hplain. unfold _clean_response.
  destruct response_text as [|c response_text]; [done|].
  by rewrite (clean_response_lines_plain _ Hplain), join_split_lines.
Qed.

Lemma clean_response_plain_witness :
  _clean_response " Dear Ann, thank you. " = "Dear Ann, thank you.".
Proof.
  rewrite (clean_response_plain " Dear Ann, thank you. ").
  - vm_compute; reflexivity.
  - repeat constructor.
Defined.

End GeminiFacts.
